(** * Presence, messaging and notification fan-out of the social app

    A shallow embedding of
      - server/socket/socketHandlers.js   (socket.io event handlers),
      - server/routes/message.routes.js   (REST messages),
      - server/routes/like.routes.js      (REST likes),
      - the notification routes and the Prisma schema,
    together with the properties of these handlers.

    The handlers are written as pure functions over an explicit state:
    the socket.io server (the [activeConnections] map of the source, the
    connected sockets and the adapter rooms) and the relational store
    behind the Prisma client (one list of rows per table, in insertion
    order).  What a handler emits is returned as a list of deliveries
    (socket id, event); what it throws and catches is returned as an
    outcome.  What a request takes from outside is an input of its
    handler: the clock and the fresh ids, and the order in which the
    store happens to scan the rows that a sort key leaves tied. *)

From stdpp Require Import base strings pretty gmap list relations sorting.
From Stdlib Require Import ZArith Lia.

Open Scope string_scope.
Open Scope list_scope.

(** ** Events sent by the server *)

Inductive Status := online | offline.

(** Columns of the [users] table read by the modelled handlers
    ([select: { id, username, avatar }]); the other columns (email,
    password, fullName, bio, timestamps) are never read by them. *)
Record User := mkUser {
  u_id : string;
  u_username : string;
  u_avatar : option string;
}.

Record Message := mkMessage {
  m_id : string;
  m_content : string;
  m_createdAt : Z;
  m_isRead : bool;
  m_senderId : string;
  m_receiverId : string;
}.

(** A message row with its [include: { sender: ... }] relation loaded. *)
Record MessageWithSender := mkMessageWithSender {
  mw_message : Message;
  mw_sender : User;
}.

Inductive Event :=
| user_status (userId : string) (status : Status)
| message_receive (message : MessageWithSender)
| notification_new
| message_read (messageId : string)
| message_typing (userId : string) (isTyping : bool).

(** One event put on the wire for one socket. *)
Definition Delivery : Type := string * Event.

#[global] Instance Status_eq_dec : EqDecision Status.
Proof. solve_decision. Defined.
#[global] Instance User_eq_dec : EqDecision User.
Proof. solve_decision. Defined.
#[global] Instance Message_eq_dec : EqDecision Message.
Proof. solve_decision. Defined.
#[global] Instance MessageWithSender_eq_dec : EqDecision MessageWithSender.
Proof. solve_decision. Defined.
#[global] Instance Event_eq_dec : EqDecision Event.
Proof. solve_decision. Defined.

(** ** The socket.io server *)

Module Io.

(** [activeConnections] is the module-level [Map] of the source
    (user id -> socket id).  [sockets] is the namespace's table of
    connected sockets with the [socket.user.id] the authentication
    middleware attached to each; [rooms] is the adapter's table of rooms.
    The room every socket gets under its own id is left out: the handlers
    only address rooms named ["user:" ++ id], and a socket id (base64
    alphabet) never contains a colon. *)
Record t := mk {
  activeConnections : gmap string string;
  sockets : gmap string string;
  rooms : gmap string (gset string);
}.

Definition init : t :=
  {| activeConnections := ∅; sockets := ∅; rooms := ∅ |}.

(** The template literal [`user:${userId}`]. *)
Definition user_room (userId : string) : string := "user:" +:+ userId.

Definition room_members (io : t) (room : string) : gset string :=
  default ∅ (rooms io !! room).

(** [io.emit(ev)]: one copy to every socket connected to the namespace. *)
Definition io_emit (io : t) (ev : Event) : list Delivery :=
  (λ sid, (sid, ev)) <$> elements (dom (sockets io)).

(** [socket.to(room).emit(ev)]: one copy to every socket of the room
    except the socket [sid] the call is made on. *)
Definition socket_to_emit (io : t) (sid room : string) (ev : Event)
  : list Delivery :=
  (λ sid', (sid', ev)) <$> elements (room_members io room ∖ {[sid]}).

(** [socket.join(room)]. *)
Definition socket_join (sid room : string) (rs : gmap string (gset string))
  : gmap string (gset string) :=
  <[room := {[sid]} ∪ default ∅ (rs !! room)]> rs.

(** What socket.io does to a socket that closes, before it fires
    ['disconnect']: the socket leaves every room. *)
Definition leave_all (sid : string) (rs : gmap string (gset string))
  : gmap string (gset string) :=
  (λ members, members ∖ {[sid]}) <$> rs.

(** [io.on('connection', (socket) => ...)] for an authenticated socket
    [sid] with [socket.user.id = userId].  socket.io has put the socket
    into the namespace before the callback runs. *)
Definition on_connection (sid userId : string) (io : t) : t * list Delivery :=
  let accepted :=
    {| activeConnections := activeConnections io;
       sockets := <[sid := userId]> (sockets io);
       rooms := rooms io |} in
  (* activeConnections.set(userId, socket.id) *)
  let stored :=
    {| activeConnections := <[userId := sid]> (activeConnections accepted);
       sockets := sockets accepted;
       rooms := rooms accepted |} in
  (* io.emit('user:status', { userId, status: 'online' }) *)
  let out := io_emit stored (user_status userId online) in
  (* socket.join(`user:${userId}`) *)
  ({| activeConnections := activeConnections stored;
      sockets := sockets stored;
      rooms := socket_join sid (user_room userId) (rooms stored) |},
   out).

(** [socket.on('disconnect', () => ...)].  socket.io has already taken
    the socket out of its rooms and out of the namespace. *)
Definition on_disconnect (sid userId : string) (io : t) : t * list Delivery :=
  let closed :=
    {| activeConnections := activeConnections io;
       sockets := delete sid (sockets io);
       rooms := leave_all sid (rooms io) |} in
  (* activeConnections.delete(userId) *)
  let removed :=
    {| activeConnections := delete userId (activeConnections closed);
       sockets := sockets closed;
       rooms := rooms closed |} in
  (* io.emit('user:status', { userId, status: 'offline' }) *)
  (removed, io_emit removed (user_status userId offline)).

(** [isUserOnline]. *)
Definition isUserOnline (io : t) (userId : string) : bool :=
  bool_decide (is_Some (activeConnections io !! userId)).

(** [socket.on('message:typing', (data) => ...)]; the field of [data] is
    interpolated into the room name whatever it is. *)
Definition on_message_typing (sid userId receiverId : string) (isTyping : bool)
    (io : t) : list Delivery :=
  socket_to_emit io sid (user_room receiverId) (message_typing userId isTyping).

(** Connections come and go; no other handler touches the server state. *)
Inductive step : t → t → Prop :=
| step_connect sid userId io :
    sockets io !! sid = None →
    step io (on_connection sid userId io).1
| step_disconnect sid userId io :
    sockets io !! sid = Some userId →
    step io (on_disconnect sid userId io).1.

Inductive reachable : t → Prop :=
| reachable_init : reachable init
| reachable_step io io' : reachable io → step io io' → reachable io'.

(** How often socket [sid] is sent event [ev]. *)
Definition received (sid : string) (ev : Event) (out : list Delivery) : nat :=
  length (filter (λ d : Delivery, d = (sid, ev)) out).

End Io.

(** ** The relational store behind the Prisma client *)

Inductive NotificationType := LIKE | COMMENT | FOLLOW | MESSAGE.

Record Post := mkPost {
  p_id : string;
  p_content : string;
  p_imageUrl : option string;
  p_createdAt : Z;
  p_userId : string;
}.

Record Like := mkLike {
  l_id : string;
  l_createdAt : Z;
  l_userId : string;
  l_postId : string;
}.

Record Notification := mkNotification {
  n_id : string;
  n_type : NotificationType;
  n_createdAt : Z;
  n_entityId : option string;
  n_actorId : option string;
}.

Record NotificationReceiver := mkNotificationReceiver {
  nr_id : string;
  nr_notificationId : string;
  nr_userId : string;
  nr_isRead : bool;
  nr_createdAt : Z;
}.

(** The tables the modelled handlers read or write. *)
Record Db := mkDb {
  users : list User;
  posts : list Post;
  likes : list Like;
  messages : list Message;
  notifications : list Notification;
  notification_receivers : list NotificationReceiver;
}.

(** What the client library throws. *)
Inductive PrismaError :=
| P2002            (* unique constraint failed *)
| P2003            (* foreign key constraint failed *)
| P2025            (* record to update not found *)
| ValidationError. (* missing or ill-typed argument, negative skip *)

(** What a request draws from outside the store: the clock behind
    [@default(now())] and the values behind [@default(uuid())], in the
    order the request draws them. *)
Record Gen := mkGen {
  now : Z;
  uuid : nat → string;
}.

Module Prisma.

Definition find_user (id : string) (db : Db) : option User :=
  find (λ u, bool_decide (u_id u = id)) (users db).

Definition find_post (id : string) (db : Db) : option Post :=
  find (λ p, bool_decide (p_id p = id)) (posts db).

Definition find_message (id : string) (db : Db) : option Message :=
  find (λ m, bool_decide (m_id m = id)) (messages db).

(** [prisma.user.findUnique({ where: { id } })]; an undefined [id] is
    refused by the client before any query is sent. *)
Definition user_findUnique (id : option string) (db : Db)
  : PrismaError + option User :=
  match id with
  | None => inl ValidationError
  | Some i => inr (find_user i db)
  end.

Definition post_findUnique (id : option string) (db : Db)
  : PrismaError + option Post :=
  match id with
  | None => inl ValidationError
  | Some i => inr (find_post i db)
  end.

Definition message_findUnique (id : option string) (db : Db)
  : PrismaError + option Message :=
  match id with
  | None => inl ValidationError
  | Some i => inr (find_message i db)
  end.

(** [prisma.message.create({ data: { content, senderId, receiverId },
    include: ... })].  [content] and [receiverId] are required strings;
    [id] is the primary key; [senderId] and [receiverId] reference
    [users.id]; [isRead] and [createdAt] take their defaults.  The result
    is the new row with both related users loaded. *)
Definition message_create (g : Gen) (k : nat) (content : option string)
    (senderId : string) (receiverId : option string) (db : Db)
  : PrismaError + (Message * User * User * Db) :=
  match content, receiverId with
  | Some c, Some r =>
      if bool_decide (uuid g k ∈ m_id <$> messages db) then inl P2002
      else
        match find_user senderId db, find_user r db with
        | Some s, Some rcv =>
            let row :=
              {| m_id := uuid g k; m_content := c; m_createdAt := now g;
                 m_isRead := false; m_senderId := senderId;
                 m_receiverId := r |} in
            inr (row, s, rcv,
                 {| users := users db; posts := posts db; likes := likes db;
                    messages := messages db ++ [row];
                    notifications := notifications db;
                    notification_receivers := notification_receivers db |})
        | _, _ => inl P2003
        end
  | _, _ => inl ValidationError
  end.

Definition set_read (m : Message) : Message :=
  {| m_id := m_id m; m_content := m_content m; m_createdAt := m_createdAt m;
     m_isRead := true; m_senderId := m_senderId m;
     m_receiverId := m_receiverId m |}.

Definition with_messages (db : Db) (ms : list Message) : Db :=
  {| users := users db; posts := posts db; likes := likes db;
     messages := ms; notifications := notifications db;
     notification_receivers := notification_receivers db |}.

(** [prisma.message.update({ where: { id }, data: { isRead: true } })]:
    throws when no row has the id. *)
Definition message_update_read (id : option string) (db : Db)
  : PrismaError + Db :=
  match id with
  | None => inl ValidationError
  | Some i =>
      match find_message i db with
      | None => inl P2025
      | Some _ =>
          inr (with_messages db
                 ((λ m, if bool_decide (m_id m = i) then set_read m else m)
                    <$> messages db))
      end
  end.

(** [prisma.message.updateMany({ where: { senderId, receiverId,
    isRead: false }, data: { isRead: true } })]. *)
Definition message_updateMany_read (senderId receiverId : string) (db : Db)
  : Db :=
  with_messages db
    ((λ m, if bool_decide (m_senderId m = senderId ∧
                           m_receiverId m = receiverId ∧
                           m_isRead m = false)
           then set_read m else m) <$> messages db).

(** The [where: { OR: [...] }] of the conversation queries. *)
Definition in_conversation (a b : string) (m : Message) : bool :=
  bool_decide ((m_senderId m = a ∧ m_receiverId m = b) ∨
               (m_senderId m = b ∧ m_receiverId m = a)).

(** [orderBy: { createdAt: 'desc' }].  The store promises nothing about
    rows of equal [createdAt]: PostgreSQL returns them in the order in
    which its scan meets them, which depends on where the rows lie and
    changes when a row is rewritten by an update.  [scan] gives, for this
    one query, the position at which the scan meets the row of a given
    id; it is an input of the query, like the clock, and a later query
    may see another one. *)
Definition goes_before (scan : string → Z) (m x : Message) : bool :=
  (m_createdAt x <? m_createdAt m)%Z
  || ((m_createdAt x =? m_createdAt m)%Z
      && (scan (m_id m) <=? scan (m_id x))%Z).

Fixpoint insert_desc (scan : string → Z) (m : Message) (l : list Message)
  : list Message :=
  match l with
  | [] => [m]
  | x :: l' =>
      if goes_before scan m x then m :: l
      else x :: insert_desc scan m l'
  end.

Definition order_desc (scan : string → Z) (l : list Message) : list Message :=
  foldr (insert_desc scan) [] l.

(** The query engine takes [skip] and [take] as 64-bit integers. *)
Definition int64_min : Z := (- 2 ^ 63)%Z.
Definition int64_max : Z := (2 ^ 63 - 1)%Z.

Definition fits_int64 (z : Z) : bool :=
  (int64_min <=? z)%Z && (z <=? int64_max)%Z.

(** [skip] and [take]: a value that does not fit a 64-bit integer and a
    negative [skip] are refused; a negative [take] counts from the end of
    the ordered list. *)
Definition paginate {A} (skip take_ : Z) (l : list A)
  : PrismaError + list A :=
  if negb (fits_int64 skip) || negb (fits_int64 take_) then inl ValidationError
  else if (skip <? 0)%Z then inl ValidationError
  else if (0 <=? take_)%Z
       then inr (take (Z.to_nat take_) (drop (Z.to_nat skip) l))
       else inr (rev (take (Z.to_nat (- take_))
                        (drop (Z.to_nat skip) (rev l)))).

(** [include: { sender: ... }] on a list of rows; the foreign key gives
    every row its sender. *)
Definition load_sender (db : Db) (m : Message) : option MessageWithSender :=
  (λ s, {| mw_message := m; mw_sender := s |}) <$> find_user (m_senderId m) db.

(** [prisma.message.findMany] of the conversation route. *)
Definition message_findMany_conversation (scan : string → Z)
    (a b : string) (skip take_ : Z) (db : Db)
  : PrismaError + list MessageWithSender :=
  match paginate skip take_
          (order_desc scan (filter (λ m, in_conversation a b m = true)
                              (messages db))) with
  | inl e => inl e
  | inr page => inr (omap (load_sender db) page)
  end.

(** [prisma.message.count] of the conversation route. *)
Definition message_count_conversation (a b : string) (db : Db) : nat :=
  length (filter (λ m, in_conversation a b m = true) (messages db)).

(** [prisma.message.count({ where: { receiverId, isRead: false } })]. *)
Definition message_count_unread (receiverId : string) (db : Db) : nat :=
  length (filter (λ m, m_receiverId m = receiverId ∧ m_isRead m = false)
            (messages db)).

Definition with_notifications (db : Db) (ns : list Notification)
    (rs : list NotificationReceiver) : Db :=
  {| users := users db; posts := posts db; likes := likes db;
     messages := messages db; notifications := ns;
     notification_receivers := rs |}.

(** The nested [receivers: { create: ... }] of a notification: one
    [notification_receivers] row per listed user, each with a fresh
    primary key, [isRead] at its default [false], and [userId]
    referencing [users.id].  [rows] is the table as it stands. *)
Fixpoint receivers_create (g : Gen) (k : nat) (notificationId : string)
    (userIds : list string) (db : Db) (rows : list NotificationReceiver)
  : PrismaError + list NotificationReceiver :=
  match userIds with
  | [] => inr rows
  | u :: rest =>
      if bool_decide (uuid g k ∈ nr_id <$> rows) then inl P2002
      else
        match find_user u db with
        | None => inl P2003
        | Some _ =>
            receivers_create g (S k) notificationId rest db
              (rows ++ [ {| nr_id := uuid g k;
                            nr_notificationId := notificationId;
                            nr_userId := u; nr_isRead := false;
                            nr_createdAt := now g |} ])
        end
  end.

(** [prisma.notification.create({ data: { type, entityId, actorId,
    receivers: { create: ... } } })].  The nested write is one
    transaction: either the notification and all its receiver rows are
    written or nothing is.  [entityId] and [actorId] are plain optional
    columns.  The notification draws [uuid g k], its receivers the values
    after it. *)
Definition notification_create (g : Gen) (k : nat) (type : NotificationType)
    (entityId actorId : option string) (receivers : list string) (db : Db)
  : PrismaError + (Notification * Db) :=
  if bool_decide (uuid g k ∈ n_id <$> notifications db) then inl P2002
  else
    let n := {| n_id := uuid g k; n_type := type; n_createdAt := now g;
                n_entityId := entityId; n_actorId := actorId |} in
    match receivers_create g (S k) (n_id n) receivers db
            (notification_receivers db) with
    | inl e => inl e
    | inr rows => inr (n, with_notifications db (notifications db ++ [n]) rows)
    end.

Definition set_nr_read (r : NotificationReceiver) : NotificationReceiver :=
  {| nr_id := nr_id r; nr_notificationId := nr_notificationId r;
     nr_userId := nr_userId r; nr_isRead := true;
     nr_createdAt := nr_createdAt r |}.

(** [prisma.notificationReceiver.updateMany({ where: { userId,
    isRead: false }, data: { isRead: true } })]. *)
Definition notificationReceiver_updateMany_read (userId : string) (db : Db)
  : Db :=
  with_notifications db (notifications db)
    ((λ r, if bool_decide (nr_userId r = userId ∧ nr_isRead r = false)
           then set_nr_read r else r) <$> notification_receivers db).

(** [prisma.notificationReceiver.count({ where: { userId,
    isRead: false } })]. *)
Definition notificationReceiver_count_unread (userId : string) (db : Db)
  : nat :=
  length (filter (λ r, nr_userId r = userId ∧ nr_isRead r = false)
            (notification_receivers db)).

(** [prisma.like.findFirst({ where: { postId, userId } })]. *)
Definition like_findFirst (postId userId : string) (db : Db) : option Like :=
  find (λ l, bool_decide (l_postId l = postId ∧ l_userId l = userId))
    (likes db).

(** [prisma.like.create({ data: { userId, postId } })]: primary key,
    [@@unique([userId, postId])], and both columns are foreign keys. *)
Definition like_create (g : Gen) (k : nat) (userId postId : string) (db : Db)
  : PrismaError + (Like * Db) :=
  if bool_decide (uuid g k ∈ l_id <$> likes db) then inl P2002
  else if bool_decide ((userId, postId) ∈
                       (λ l, (l_userId l, l_postId l)) <$> likes db)
  then inl P2002
  else
    match find_user userId db, find_post postId db with
    | Some _, Some _ =>
        let row := {| l_id := uuid g k; l_createdAt := now g;
                      l_userId := userId; l_postId := postId |} in
        inr (row,
             {| users := users db; posts := posts db;
                likes := likes db ++ [row]; messages := messages db;
                notifications := notifications db;
                notification_receivers := notification_receivers db |})
    | _, _ => inl P2003
    end.

End Prisma.

(** ** Socket handlers that touch the store *)

(** How a handler body wrapped in [try { ... } catch (error) {
    console.error(...) }] ends. *)
Inductive Outcome :=
| Done
| Caught (error : PrismaError).

Module Socket.

(** [socket.on('message:send', async (data) => ...)] on socket [sid] of
    user [userId], with [data = { receiverId, content }] (a field is
    [None] when it is missing).  A created row carries the [receiverId]
    of [data], which is the one read back below. *)
Definition on_message_send (g : Gen) (sid userId : string)
    (receiverId content : option string) (io : Io.t) (db : Db)
  : Db * list Delivery * Outcome :=
  match Prisma.message_create g 0 content userId receiverId db with
  | inl e => (db, [], Caught e)
  | inr (message, sender, _, db1) =>
      let receiverId := m_receiverId message in
      match Prisma.notification_create g 1 MESSAGE None (Some userId)
              [receiverId] db1 with
      | inl e => (db1, [], Caught e)
      | inr (_, db2) =>
          (db2,
           Io.socket_to_emit io sid (Io.user_room receiverId)
             (message_receive {| mw_message := message; mw_sender := sender |})
           ++ Io.socket_to_emit io sid (Io.user_room receiverId)
                notification_new,
           Done)
      end
  end.

(** [socket.on('message:read', async (data) => ...)] with
    [data = { messageId }].  The update has checked that the id is
    there, so the payload's [messageId] is the id of the row found. *)
Definition on_message_read (sid userId : string) (messageId : option string)
    (io : Io.t) (db : Db) : Db * list Delivery * Outcome :=
  match Prisma.message_update_read messageId db with
  | inl e => (db, [], Caught e)
  | inr db1 =>
      match Prisma.message_findUnique messageId db1 with
      | inl e => (db1, [], Caught e)
      | inr None => (db1, [], Done)
      | inr (Some message) =>
          (db1,
           Io.socket_to_emit io sid (Io.user_room (m_senderId message))
             (message_read (m_id message)),
           Done)
      end
  end.

End Socket.

(** ** REST routes *)

Inductive Body :=
| json_msg (message : string)
| json_message (message : Message) (sender receiver : User)
| json_count (count : nat)
| json_conversation (messages : list MessageWithSender) (page limit : Z)
    (totalMessages : nat) (totalPages : Z).

Record Response := mkResponse {
  status : nat;
  body : Body;
}.

(** JavaScript's [!content] on a field that is a string or missing. *)
Definition falsy (field : option string) : bool :=
  match field with
  | None => true
  | Some s => bool_decide (s = "")
  end.

(** The numbers of the routes are JavaScript numbers, IEEE doubles.  A
    whole number up to [max_safe_integer] in absolute value is held
    exactly; a larger one is rounded to 53 significant bits, ties to
    even.  [js_number z] is the number that stands for the whole number
    [z]: what [parseInt] returns for the digits of [z], and what [-]
    and [*] return when their exact result is [z]. *)
Definition max_safe_integer : Z := (2 ^ 53 - 1)%Z.

Definition js_number (z : Z) : Z :=
  let a := Z.abs z in
  if (a <? 2 ^ 53)%Z then z
  else
    let e := (Z.log2 a - 52)%Z in
    let q := (a / 2 ^ e)%Z in
    let r := (a mod 2 ^ e)%Z in
    let half := (2 ^ (e - 1))%Z in
    let q' := if (half <? r)%Z || ((r =? half)%Z && Z.odd q)
              then (q + 1)%Z else q in
    (Z.sgn z * (q' * 2 ^ e))%Z.

(** [n || d] for a number [n]; [None] is [NaN]. *)
Definition or_default (q : option Z) (d : Z) : Z :=
  match q with
  | Some z => if (z =? 0)%Z then d else z
  | None => d
  end.

(** [Math.ceil(a / b)] for an integer [a] and a non-zero integer [b]. *)
Definition ceil_div (a b : Z) : Z := (- ((- a) / b))%Z.

Module Routes.

(** [router.post('/')] of the message routes, for [req.user.id = userId]
    and [req.body = { receiverId, content }]. *)
Definition post_message (g : Gen) (userId : string)
    (receiverId content : option string) (db : Db) : Db * Response :=
  if falsy content
  then (db, {| status := 400; body := json_msg "Message content is required" |})
  else
    match Prisma.user_findUnique receiverId db with
    | inl _ => (db, {| status := 500; body := json_msg "Error sending message" |})
    | inr None =>
        (db, {| status := 404; body := json_msg "Receiver not found" |})
    | inr (Some _) =>
        match Prisma.message_create g 0 content userId receiverId db with
        | inl _ =>
            (db, {| status := 500; body := json_msg "Error sending message" |})
        | inr (message, sender, receiver, db1) =>
            match Prisma.notification_create g 1 MESSAGE None (Some userId)
                    [m_receiverId message] db1 with
            | inl _ =>
                (db1, {| status := 500;
                         body := json_msg "Error sending message" |})
            | inr (_, db2) =>
                (db2, {| status := 201;
                         body := json_message message sender receiver |})
            end
        end
    end.

(** [router.get('/conversation/:userId')] for [req.user.id = me] and
    [req.params.userId = userId]; [qpage] and [qlimit] are the whole
    numbers that [parseInt] reads off [req.query.page] and
    [req.query.limit], [None] where it finds none ([NaN]); [scan] is the
    order in which the store's scan meets the rows during the [findMany]
    of this request. *)
Definition get_conversation (scan : string → Z) (me userId : string)
    (qpage qlimit : option Z) (db : Db) : Db * Response :=
  let page := or_default (js_number <$> qpage) 1 in
  let limit := or_default (js_number <$> qlimit) 20 in
  let skip := js_number (js_number (page - 1) * limit) in
  match Prisma.find_user userId db with
  | None => (db, {| status := 404; body := json_msg "User not found" |})
  | Some _ =>
      match Prisma.message_findMany_conversation scan me userId skip limit
              db with
      | inl _ =>
          (db, {| status := 500;
                  body := json_msg "Error fetching conversation" |})
      | inr found =>
          let db1 := Prisma.message_updateMany_read userId me db in
          let totalMessages := Prisma.message_count_conversation me userId db1 in
          (db1, {| status := 200;
                   body := json_conversation (rev found) page limit
                             totalMessages
                             (ceil_div (Z.of_nat totalMessages) limit) |})
      end
  end.

(** [router.post('/')] of the like routes, for [req.user.id = userId]
    and [req.body = { postId }]. *)
Definition post_like (g : Gen) (userId : string) (postId : option string)
    (db : Db) : Db * Response :=
  match Prisma.post_findUnique postId db with
  | inl _ => (db, {| status := 500; body := json_msg "Error liking post" |})
  | inr None => (db, {| status := 404; body := json_msg "Post not found" |})
  | inr (Some post) =>
      match Prisma.like_findFirst (p_id post) userId db with
      | Some _ =>
          (db, {| status := 400; body := json_msg "Post already liked" |})
      | None =>
          match Prisma.like_create g 0 userId (p_id post) db with
          | inl _ =>
              (db, {| status := 500; body := json_msg "Error liking post" |})
          | inr (_, db1) =>
              if bool_decide (p_userId post ≠ userId)
              then
                match Prisma.notification_create g 1 LIKE (Some (p_id post))
                        (Some userId) [p_userId post] db1 with
                | inl _ =>
                    (db1, {| status := 500;
                             body := json_msg "Error liking post" |})
                | inr (_, db2) =>
                    (db2, {| status := 201;
                             body := json_msg "Post liked successfully" |})
                end
              else
                (db1, {| status := 201;
                         body := json_msg "Post liked successfully" |})
          end
      end
  end.

(** [router.put('/read-all')] of the notification routes. *)
Definition put_read_all (userId : string) (db : Db) : Db * Response :=
  (Prisma.notificationReceiver_updateMany_read userId db,
   {| status := 200; body := json_msg "All notifications marked as read" |}).

(** [router.get('/unread/count')] of the notification routes. *)
Definition get_unread_count (userId : string) (db : Db) : Db * Response :=
  (db, {| status := 200;
          body := json_count (Prisma.notificationReceiver_count_unread userId db) |}).

End Routes.

(** ** Further tables, queries and routes *)

Record Follow := mkFollow {
  f_id : string;
  f_followerId : string;
  f_followingId : string;
  f_createdAt : Z;
}.

Record Comment := mkComment {
  c_id : string;
  c_content : string;
  c_createdAt : Z;
  c_updatedAt : Z;
  c_userId : string;
  c_postId : string;
}.

(** What a route answers when its body is not one of [Body]:
    [res.status(code).json(value)] or [res.status(code).json({ message })]. *)
Inductive Answer (A : Type) :=
| answer (code : nat) (value : A)
| refusal (code : nat) (message : string).
Arguments answer {A} code value.
Arguments refusal {A} code message.

Module Store.

Definition with_likes (db : Db) (ls : list Like) : Db :=
  {| users := users db; posts := posts db; likes := ls;
     messages := messages db; notifications := notifications db;
     notification_receivers := notification_receivers db |}.

(** [prisma.like.delete({ where: { id } })]: throws when no row has the
    id. *)
Definition like_delete (id : string) (db : Db) : PrismaError + Db :=
  if bool_decide (id ∈ l_id <$> likes db)
  then inr (with_likes db (filter (λ l, l_id l ≠ id) (likes db)))
  else inl P2025.

(** [prisma.notificationReceiver.findFirst({ where: { id, userId } })]. *)
Definition notificationReceiver_findFirst (id userId : string) (db : Db)
  : option NotificationReceiver :=
  find (λ r, bool_decide (nr_id r = id ∧ nr_userId r = userId))
    (notification_receivers db).

(** [prisma.notificationReceiver.update({ where: { id },
    data: { isRead: true } })]. *)
Definition notificationReceiver_update_read (id : string) (db : Db)
  : PrismaError + Db :=
  if bool_decide (id ∈ nr_id <$> notification_receivers db)
  then inr (Prisma.with_notifications db (notifications db)
              ((λ r, if bool_decide (nr_id r = id)
                     then Prisma.set_nr_read r else r)
                 <$> notification_receivers db))
  else inl P2025.

(** [prisma.follow.findFirst({ where: { followerId, followingId } })]. *)
Definition follow_findFirst (followerId followingId : string)
    (follows : list Follow) : option Follow :=
  find (λ f, bool_decide (f_followerId f = followerId
                          ∧ f_followingId f = followingId)) follows.

(** [prisma.follow.create({ data: { followerId, followingId } })]:
    primary key, [@@unique([followerId, followingId])], both columns
    reference [users.id]. *)
Definition follow_create (g : Gen) (k : nat) (followerId followingId : string)
    (db : Db) (follows : list Follow) : PrismaError + list Follow :=
  if bool_decide (uuid g k ∈ f_id <$> follows) then inl P2002
  else if bool_decide ((followerId, followingId) ∈
                       (λ f, (f_followerId f, f_followingId f)) <$> follows)
  then inl P2002
  else
    match Prisma.find_user followerId db, Prisma.find_user followingId db with
    | Some _, Some _ =>
        inr (follows ++ [ {| f_id := uuid g k; f_followerId := followerId;
                             f_followingId := followingId;
                             f_createdAt := now g |} ])
    | _, _ => inl P2003
    end.

(** [prisma.comment.create({ data: { content, userId, postId },
    include: { user: ... } })]: primary key, [userId] references
    [users.id] and [postId] references [posts.id]. *)
Definition comment_create (g : Gen) (k : nat) (content userId postId : string)
    (db : Db) (comments : list Comment)
  : PrismaError + (Comment * User * list Comment) :=
  if bool_decide (uuid g k ∈ c_id <$> comments) then inl P2002
  else
    match Prisma.find_user userId db, Prisma.find_post postId db with
    | Some u, Some _ =>
        let row := {| c_id := uuid g k; c_content := content;
                      c_createdAt := now g; c_updatedAt := now g;
                      c_userId := userId; c_postId := postId |} in
        inr (row, u, comments ++ [row])
    | _, _ => inl P2003
    end.

Definition find_comment (id : string) (comments : list Comment)
  : option Comment :=
  find (λ c, bool_decide (c_id c = id)) comments.

End Store.

Module Api.

(** [router.get('/unread/count')] of the message routes. *)
Definition get_messages_unread_count (userId : string) (db : Db)
  : Db * Response :=
  (db, {| status := 200;
          body := json_count (Prisma.message_count_unread userId db) |}).

(** [router.delete('/:postId')] of the like routes. *)
Definition delete_like (userId postId : string) (db : Db) : Db * Response :=
  match Prisma.find_post postId db with
  | None => (db, {| status := 404; body := json_msg "Post not found" |})
  | Some _ =>
      match Prisma.like_findFirst postId userId db with
      | None => (db, {| status := 404; body := json_msg "Like not found" |})
      | Some like =>
          match Store.like_delete (l_id like) db with
          | inl _ =>
              (db, {| status := 500; body := json_msg "Error unliking post" |})
          | inr db1 =>
              (db1, {| status := 200;
                       body := json_msg "Post unliked successfully" |})
          end
      end
  end.

(** [router.get('/:postId/check')] of the like routes: the body is
    [{ liked: !!like }]. *)
Definition get_like_check (userId postId : string) (db : Db) : Answer bool :=
  answer 200 (bool_decide (is_Some (Prisma.like_findFirst postId userId db))).

(** [router.put('/:id/read')] of the notification routes. *)
Definition put_notification_read (userId id : string) (db : Db)
  : Db * Response :=
  match Store.notificationReceiver_findFirst id userId db with
  | None =>
      (db, {| status := 404; body := json_msg "Notification not found" |})
  | Some _ =>
      match Store.notificationReceiver_update_read id db with
      | inl _ =>
          (db, {| status := 500;
                  body := json_msg "Error marking notification as read" |})
      | inr db1 =>
          (db1, {| status := 200;
                   body := json_msg "Notification marked as read" |})
      end
  end.

(** [router.post('/')] of the follow routes, for [req.user.id = userId]
    and [req.body = { followingId }].  The user found carries the
    [followingId] of the body as its id. *)
Definition post_follow (g : Gen) (userId : string) (followingId : option string)
    (db : Db) (follows : list Follow) : Db * list Follow * Response :=
  if bool_decide (followingId = Some userId)
  then (db, follows,
        {| status := 400; body := json_msg "Cannot follow yourself" |})
  else
    match Prisma.user_findUnique followingId db with
    | inl _ =>
        (db, follows,
         {| status := 500; body := json_msg "Error following user" |})
    | inr None =>
        (db, follows, {| status := 404; body := json_msg "User not found" |})
    | inr (Some userToFollow) =>
        match Store.follow_findFirst userId (u_id userToFollow) follows with
        | Some _ =>
            (db, follows,
             {| status := 400;
                body := json_msg "Already following this user" |})
        | None =>
            match Store.follow_create g 0 userId (u_id userToFollow) db
                    follows with
            | inl _ =>
                (db, follows,
                 {| status := 500; body := json_msg "Error following user" |})
            | inr follows1 =>
                match Prisma.notification_create g 1 FOLLOW None (Some userId)
                        [u_id userToFollow] db with
                | inl _ =>
                    (db, follows1,
                     {| status := 500;
                        body := json_msg "Error following user" |})
                | inr (_, db1) =>
                    (db1, follows1,
                     {| status := 201;
                        body := json_msg "Successfully followed user" |})
                end
            end
        end
    end.

(** [router.post('/')] of the comment routes, for [req.user.id = userId]
    and [req.body = { postId, content }]; [!content] holds for a missing
    and for an empty content.  The post found carries the [postId] of
    the body as its id. *)
Definition post_comment (g : Gen) (userId : string)
    (postId content : option string) (db : Db) (comments : list Comment)
  : Db * list Comment * Answer (Comment * User) :=
  match content with
  | None => (db, comments, refusal 400 "Comment content is required")
  | Some text =>
      if bool_decide (text = "")
      then (db, comments, refusal 400 "Comment content is required")
      else
        match Prisma.post_findUnique postId db with
        | inl _ => (db, comments, refusal 500 "Error creating comment")
        | inr None => (db, comments, refusal 404 "Post not found")
        | inr (Some post) =>
            match Store.comment_create g 0 text userId (p_id post) db
                    comments with
            | inl _ => (db, comments, refusal 500 "Error creating comment")
            | inr (comment, user, comments1) =>
                if bool_decide (p_userId post ≠ userId)
                then
                  match Prisma.notification_create g 1 COMMENT
                          (Some (p_id post)) (Some userId)
                          [p_userId post] db with
                  | inl _ =>
                      (db, comments1, refusal 500 "Error creating comment")
                  | inr (_, db1) =>
                      (db1, comments1, answer 201 (comment, user))
                  end
                else (db, comments1, answer 201 (comment, user))
            end
        end
  end.

(** [router.delete('/:id')] of the comment routes: the author of the
    comment and the owner of its post may delete it.  [comment.post] is
    the included relation; it is read only when the caller is not the
    author. *)
Definition delete_comment (userId id : string) (db : Db)
    (comments : list Comment) : list Comment * Response :=
  match Store.find_comment id comments with
  | None =>
      (comments, {| status := 404; body := json_msg "Comment not found" |})
  | Some comment =>
      let deleted :=
        (filter (λ c, c_id c ≠ id) comments,
         {| status := 200; body := json_msg "Comment deleted successfully" |}) in
      if bool_decide (c_userId comment ≠ userId)
      then
        match Prisma.find_post (c_postId comment) db with
        | None =>
            (comments,
             {| status := 500; body := json_msg "Error deleting comment" |})
        | Some post =>
            if bool_decide (p_userId post ≠ userId)
            then (comments,
                  {| status := 403;
                     body := json_msg "Not authorized to delete this comment" |})
            else deleted
        end
      else deleted
  end.

End Api.

(** ** The browser side of the socket *)

Module Client.

(** What the page emits on its socket. *)
Inductive Emit :=
| emit_message_read (messageId : string)
| emit_message_typing (receiverId : string) (isTyping : bool).

(** The ['user:status'] listener of the socket context: the next value
    of [onlineUsers]. *)
Definition on_user_status (userId : string) (status : Status)
    (prev : gset string) : gset string :=
  match status with
  | online => {[userId]} ∪ prev
  | offline => prev ∖ {[userId]}
  end.

(** [isUserOnline] of the socket context. *)
Definition isUserOnline (onlineUsers : gset string) (userId : string) : bool :=
  bool_decide (userId ∈ onlineUsers).

(** The socket context has one listener; other events pass it by. *)
Definition presence_listener (ev : Event) (onlineUsers : gset string)
  : gset string :=
  match ev with
  | user_status userId status => on_user_status userId status onlineUsers
  | _ => onlineUsers
  end.

(** [onlineUsers] of the client on socket [sid] after it has handled, in
    order, what the server put on the wire for it. *)
Definition presence_after (sid : string) (out : list Delivery)
    (onlineUsers : gset string) : gset string :=
  foldl (λ st (d : Delivery),
           if bool_decide (d.1 = sid) then presence_listener d.2 st else st)
    onlineUsers out.

(** [handleReceiveMessage] of the conversation page open on [userId]:
    the next message list and what the page emits. *)
Definition handleReceiveMessage (userId : string) (message : MessageWithSender)
    (prev : list MessageWithSender) : list MessageWithSender * list Emit :=
  if bool_decide (m_senderId (mw_message message) = userId)
  then (prev ++ [message], [emit_message_read (m_id (mw_message message))])
  else (prev, []).

(** [handleMessageRead]. *)
Definition handleMessageRead (messageId : string)
    (prev : list MessageWithSender) : list MessageWithSender :=
  (λ message,
     if bool_decide (m_id (mw_message message) = messageId)
     then {| mw_message := Prisma.set_read (mw_message message);
             mw_sender := mw_sender message |}
     else message) <$> prev.

(** [handleTypingIndicator]: the next value of [userTyping]. *)
Definition handleTypingIndicator (userId typingUserId : string)
    (isTyping userTyping : bool) : bool :=
  if bool_decide (typingUserId = userId) then isTyping else userTyping.

(** The state update of [fetchMessages] for a fetched page:
    [page === 1 ? newMessages : [...newMessages, ...prev]] and
    [page < totalPages]. *)
Definition fetched (page totalPages : Z) (newMessages prev
    : list MessageWithSender) : list MessageWithSender * bool :=
  (if bool_decide (page = 1%Z) then newMessages else newMessages ++ prev,
   bool_decide (page < totalPages)%Z).

End Client.

(** ** Vocabulary of the properties *)

(** Every stored handle is a connected socket of that user. *)
Definition registry_live (io : Io.t) : Prop :=
  ∀ u s, Io.activeConnections io !! u = Some s → Io.sockets io !! s = Some u.

(** The room of a user holds exactly the connected sockets of that user. *)
Definition rooms_by_user (io : Io.t) : Prop :=
  ∀ s u, s ∈ Io.room_members io (Io.user_room u) ↔ Io.sockets io !! s = Some u.

(** The receiver rows a nested create writes for [userIds], drawing
    ids from position [k] on. *)
Fixpoint new_receivers (g : Gen) (k : nat) (notificationId : string)
    (userIds : list string) : list NotificationReceiver :=
  match userIds with
  | [] => []
  | u :: rest =>
      {| nr_id := uuid g k; nr_notificationId := notificationId;
         nr_userId := u; nr_isRead := false; nr_createdAt := now g |}
      :: new_receivers g (S k) notificationId rest
  end.

(** The row a send of [content] from [A] to [B] writes. *)
Definition sent_message (g : Gen) (A B content : string) : Message :=
  {| m_id := uuid g 0; m_content := content; m_createdAt := now g;
     m_isRead := false; m_senderId := A; m_receiverId := B |}.

(** The store after that send. *)
Definition sent_store (g : Gen) (A B content : string) (db : Db) : Db :=
  {| users := users db; posts := posts db; likes := likes db;
     messages := messages db ++ [sent_message g A B content];
     notifications :=
       notifications db ++
       [ {| n_id := uuid g 1; n_type := MESSAGE; n_createdAt := now g;
            n_entityId := None; n_actorId := Some A |} ];
     notification_receivers :=
       notification_receivers db ++
       [ {| nr_id := uuid g 2; nr_notificationId := uuid g 1;
            nr_userId := B; nr_isRead := false; nr_createdAt := now g |} ] |}.

(** A message row and a later state of it: the same row, except that
    an unread row may have become read. *)
Definition message_kept (m m' : Message) : Prop :=
  m_id m' = m_id m ∧ m_content m' = m_content m
  ∧ m_createdAt m' = m_createdAt m
  ∧ m_senderId m' = m_senderId m ∧ m_receiverId m' = m_receiverId m
  ∧ (m_isRead m = true → m_isRead m' = true).

Definition receiver_kept (r r' : NotificationReceiver) : Prop :=
  nr_id r' = nr_id r ∧ nr_notificationId r' = nr_notificationId r
  ∧ nr_userId r' = nr_userId r ∧ nr_createdAt r' = nr_createdAt r
  ∧ (nr_isRead r = true → nr_isRead r' = true).

(** [db'] is [db] grown: users and posts as they were, every message
    and every receiver row still in its place and kept, notifications
    only appended. *)
Definition grown (db db' : Db) : Prop :=
  users db' = users db
  ∧ posts db' = posts db
  ∧ (∀ i m, messages db !! i = Some m →
       ∃ m', messages db' !! i = Some m' ∧ message_kept m m')
  ∧ notifications db `prefix_of` notifications db'
  ∧ (∀ i r, notification_receivers db !! i = Some r →
       ∃ r', notification_receivers db' !! i = Some r' ∧ receiver_kept r r').

(** One request served by one of the handlers that write to the store,
    with any input. *)
Inductive served : Db → Db → Prop :=
| served_message_send g sid userId receiverId content io db :
    served db (Socket.on_message_send g sid userId receiverId content io db).1.1
| served_message_read sid userId messageId io db :
    served db (Socket.on_message_read sid userId messageId io db).1.1
| served_post_message g userId receiverId content db :
    served db (Routes.post_message g userId receiverId content db).1
| served_get_conversation scan me userId qpage qlimit db :
    served db (Routes.get_conversation scan me userId qpage qlimit db).1
| served_post_like g userId postId db :
    served db (Routes.post_like g userId postId db).1
| served_delete_like userId postId db :
    served db (Api.delete_like userId postId db).1
| served_put_read_all userId db :
    served db (Routes.put_read_all userId db).1
| served_put_notification_read userId id db :
    served db (Api.put_notification_read userId id db).1
| served_post_follow g userId followingId db follows :
    served db (Api.post_follow g userId followingId db follows).1.1
| served_post_comment g userId postId content db comments :
    served db (Api.post_comment g userId postId content db comments).1.1.

(** Newest first. *)
Definition newer_first (a b : Message) : Prop :=
  (m_createdAt b ≤ m_createdAt a)%Z.

(** A page request that the routes compute exactly and the store takes:
    [page] and [limit] from 1 on, both and the offset
    [(page - 1) * limit] within the integers a JavaScript number holds
    exactly (and so within the store's 64 bits). *)
Definition page_request (page limit : Z) : Prop :=
  (1 ≤ page ≤ max_safe_integer)%Z ∧ (1 ≤ limit ≤ max_safe_integer)%Z
  ∧ ((page - 1) * limit ≤ max_safe_integer)%Z.

(** No one follows themselves and no pair is stored twice. *)
Definition follows_ok (follows : list Follow) : Prop :=
  NoDup ((λ f, (f_followerId f, f_followingId f)) <$> follows)
  ∧ ∀ f, f ∈ follows → f_followerId f ≠ f_followingId f.

(** What [fetchMessages] reads off the answer: [response.data.messages]
    and [response.data.pagination.totalPages]. *)
Definition response_messages (r : Response) : list MessageWithSender :=
  match body r with
  | json_conversation messages _ _ _ _ => messages
  | _ => []
  end.

Definition response_totalPages (r : Response) : Z :=
  match body r with
  | json_conversation _ _ _ _ totalPages => totalPages
  | _ => 0
  end.

(** The ids of the messages a page shows, top to bottom. *)
Definition shown_ids (msgs : list MessageWithSender) : list string :=
  (λ mw, m_id (mw_message mw)) <$> msgs.

(** ** Concrete scenarios *)

Module Scenario.

(** Identity A is connected on socket c1. *)
Definition io_A : Io.t := (Io.on_connection "c1" "A" Io.init).1.

(** Identities A and B are connected, on c1 and on c2. *)
Definition io_AB : Io.t := (Io.on_connection "c2" "B" io_A).1.

Definition g0 : Gen := {| now := 1700000000; uuid := λ k, "uuid-" +:+ pretty k |}.

Definition alice : User := {| u_id := "A"; u_username := "alice"; u_avatar := None |}.
Definition bob : User := {| u_id := "B"; u_username := "bob"; u_avatar := None |}.

(** Two users and nothing else. *)
Definition db_AB : Db :=
  {| users := [alice; bob]; posts := []; likes := []; messages := [];
     notifications := []; notification_receivers := [] |}.

(** A message of A to B, before and after B has read it. *)
Definition m1 (isRead : bool) : Message :=
  {| m_id := "m1"; m_content := "hi"; m_createdAt := 1600000000;
     m_isRead := isRead; m_senderId := "A"; m_receiverId := "B" |}.

Definition db_m1 (isRead : bool) : Db :=
  {| users := [alice; bob]; posts := []; likes := [];
     messages := [m1 isRead];
     notifications := []; notification_receivers := [] |}.

(** A later answer of B and a third message of A. *)
Definition m2 : Message :=
  {| m_id := "m2"; m_content := "hello"; m_createdAt := 1600000100;
     m_isRead := false; m_senderId := "B"; m_receiverId := "A" |}.

Definition m3 (isRead : bool) : Message :=
  {| m_id := "m3"; m_content := "bye"; m_createdAt := 1600000200;
     m_isRead := isRead; m_senderId := "A"; m_receiverId := "B" |}.

Definition db_m3 : Db :=
  {| users := [alice; bob]; posts := []; likes := [];
     messages := [m1 false; m2; m3 false];
     notifications := []; notification_receivers := [] |}.

(** Two scans of the message table: in the order of the ids, and a scan
    that meets the row m3 first. *)
Definition scan0 : string → Z := λ _, 0%Z.
Definition scan1 : string → Z := λ i, if bool_decide (i = "m3") then 0%Z else 1%Z.

(** B has written a post. *)
Definition p1 : Post :=
  {| p_id := "p1"; p_content := "hello"; p_imageUrl := None;
     p_createdAt := 1500000000; p_userId := "B" |}.

Definition db_p1 : Db :=
  {| users := [alice; bob]; posts := [p1]; likes := []; messages := [];
     notifications := []; notification_receivers := [] |}.

(** B has one unread notification. *)
Definition nr1 : NotificationReceiver :=
  {| nr_id := "r1"; nr_notificationId := "n1"; nr_userId := "B";
     nr_isRead := false; nr_createdAt := 1500000000 |}.

Definition db_nr1 : Db :=
  {| users := [alice; bob]; posts := []; likes := []; messages := [];
     notifications :=
       [ {| n_id := "n1"; n_type := FOLLOW; n_createdAt := 1500000000;
            n_entityId := None; n_actorId := Some "A" |} ];
     notification_receivers := [nr1] |}.

End Scenario.

(** * Properties *)

(** ** Counting deliveries *)

Section Received.
Implicit Types (l : list string) (X : gset string) (ev : Event).

Lemma received_app s ev (out1 out2 : list Delivery) :
  Io.received s ev (out1 ++ out2) = Io.received s ev out1 + Io.received s ev out2.
Proof. unfold Io.received. by rewrite filter_app, length_app. Qed.

Lemma received_other_event l s ev ev' :
  ev' ≠ ev → Io.received s ev' ((λ x, (x, ev)) <$> l) = 0.
Proof.
  intros Hne. unfold Io.received. induction l as [|x l IH]; [done|].
  rewrite fmap_cons, filter_cons. case_decide; [congruence | exact IH].
Qed.

Lemma received_absent l s ev ev' :
  s ∉ l → Io.received s ev' ((λ x, (x, ev)) <$> l) = 0.
Proof.
  unfold Io.received. induction l as [|x l IH]; intros Hs; [done|].
  apply not_elem_of_cons in Hs as [Hx Hl].
  rewrite fmap_cons, filter_cons. case_decide; [congruence | auto].
Qed.

Lemma received_once l s ev :
  NoDup l → s ∈ l → Io.received s ev ((λ x, (x, ev)) <$> l) = 1.
Proof.
  induction 1 as [|x l Hx Hnd IH]; intros Hs; [by apply elem_of_nil in Hs|].
  unfold Io.received in *. rewrite fmap_cons, filter_cons. case_decide as Heq.
  - injection Heq as ->. simpl. f_equal.
    by apply (received_absent l s ev ev).
  - apply elem_of_cons in Hs as [->|Hs]; [done | auto].
Qed.

(** A broadcast over a set of sockets reaches every member exactly
    once and nobody else, with the event broadcast and no other. *)
Lemma received_broadcast X s ev ev' :
  Io.received s ev' ((λ x, (x, ev)) <$> elements X)
  = if bool_decide (s ∈ X ∧ ev' = ev) then 1 else 0.
Proof.
  case_bool_decide as H.
  - destruct H as [Hs ->]. apply received_once; [apply NoDup_elements|].
    by apply elem_of_elements.
  - destruct (decide (ev' = ev)) as [->|Hne].
    + apply received_absent. rewrite elem_of_elements. tauto.
    + by apply received_other_event.
Qed.
End Received.

Lemma received_io_emit io s ev ev' :
  Io.received s ev' (Io.io_emit io ev)
  = if bool_decide (is_Some (Io.sockets io !! s) ∧ ev' = ev) then 1 else 0.
Proof.
  unfold Io.io_emit. rewrite received_broadcast.
  erewrite bool_decide_ext; [reflexivity|]. by rewrite elem_of_dom.
Qed.

Lemma received_socket_to_emit io sid room s ev ev' :
  Io.received s ev' (Io.socket_to_emit io sid room ev)
  = if bool_decide ((s ∈ Io.room_members io room ∧ s ≠ sid) ∧ ev' = ev)
    then 1 else 0.
Proof.
  unfold Io.socket_to_emit. rewrite received_broadcast.
  erewrite bool_decide_ext; [reflexivity|].
  rewrite elem_of_difference, elem_of_singleton. tauto.
Qed.

(** ** Invariants of the connection layer *)

Lemma user_room_inj a b : Io.user_room a = Io.user_room b → a = b.
Proof. unfold Io.user_room. intros ?. by simplify_eq/=. Qed.

Lemma room_members_join sid room io ac sk r :
  Io.room_members
    {| Io.activeConnections := ac; Io.sockets := sk;
       Io.rooms := Io.socket_join sid room (Io.rooms io) |} r
  = if decide (room = r) then {[sid]} ∪ Io.room_members io r
    else Io.room_members io r.
Proof.
  unfold Io.room_members, Io.socket_join. simpl.
  rewrite lookup_insert. by case_decide; subst.
Qed.

Lemma room_members_leave sid io ac sk r :
  Io.room_members
    {| Io.activeConnections := ac; Io.sockets := sk;
       Io.rooms := Io.leave_all sid (Io.rooms io) |} r
  = Io.room_members io r ∖ {[sid]}.
Proof.
  unfold Io.room_members, Io.leave_all. simpl. rewrite lookup_fmap.
  destruct (Io.rooms io !! r); simpl; [done|].
  apply set_eq. intros x. rewrite elem_of_difference, elem_of_empty. tauto.
Qed.

Lemma room_members_connect sid u io r :
  Io.room_members (Io.on_connection sid u io).1 r
  = if decide (Io.user_room u = r) then {[sid]} ∪ Io.room_members io r
    else Io.room_members io r.
Proof.
  unfold Io.on_connection. cbn [fst Io.rooms Io.sockets Io.activeConnections].
  apply room_members_join.
Qed.

Lemma room_members_disconnect sid u io r :
  Io.room_members (Io.on_disconnect sid u io).1 r
  = Io.room_members io r ∖ {[sid]}.
Proof.
  unfold Io.on_disconnect. cbn [fst Io.rooms Io.sockets Io.activeConnections].
  apply room_members_leave.
Qed.

Lemma registry_live_step io io' :
  registry_live io → Io.step io io' → registry_live io'.
Proof.
  intros Hinv Hstep.
  destruct Hstep as [sid u0 io0 Hfresh | sid u0 io0 Hconn]; intros u s; simpl.
  - rewrite lookup_insert. case_decide as Hu.
    + intros [= <-]. subst. by rewrite lookup_insert_eq.
    + intros Hs. apply Hinv in Hs.
      rewrite lookup_insert_ne; [done | congruence].
  - rewrite lookup_delete. case_decide as Hu; [done|].
    intros Hs. apply Hinv in Hs.
    rewrite lookup_delete_ne; [done | congruence].
Qed.

Lemma rooms_by_user_step io io' :
  rooms_by_user io → Io.step io io' → rooms_by_user io'.
Proof.
  intros Hinv Hstep.
  destruct Hstep as [sid u0 io0 Hfresh | sid u0 io0 Hconn]; intros s u.
  - rewrite room_members_connect. cbn [Io.on_connection fst Io.sockets].
    rewrite lookup_insert. specialize (Hinv s u).
    case_decide as Hr; case_decide as Hs; subst.
    + apply user_room_inj in Hr as ->.
      split; [done | intros _; apply elem_of_union_l; by apply elem_of_singleton].
    + apply user_room_inj in Hr as ->.
      rewrite elem_of_union, elem_of_singleton. split; [|tauto].
      intros [?|?]; [congruence | tauto].
    + split; [| intros [= ->]; done].
      intros Hm. apply Hinv in Hm. congruence.
    + done.
  - rewrite room_members_disconnect. cbn [Io.on_disconnect fst Io.sockets].
    rewrite lookup_delete. specialize (Hinv s u).
    rewrite elem_of_difference, elem_of_singleton.
    case_decide as Hs; subst.
    + split; [intros [_ ?]; done | done].
    + split; [tauto | intros ?; split; [tauto | congruence]].
Qed.

Lemma reachable_inv io :
  Io.reachable io → registry_live io ∧ rooms_by_user io.
Proof.
  induction 1 as [|io io' _ [IH1 IH2] Hstep].
  - split; [intros u s; simpl; by rewrite lookup_empty|].
    intros s u. unfold Io.room_members. simpl.
    rewrite !lookup_empty. simpl. rewrite elem_of_empty.
    split; [done | discriminate].
  - split; [by eapply registry_live_step | by eapply rooms_by_user_step].
Qed.

(** In a reachable state the handle stored for a user sits in the room
    of that user. *)
Lemma registered_in_room io u s :
  Io.reachable io → Io.activeConnections io !! u = Some s →
  s ∈ Io.room_members io (Io.user_room u).
Proof.
  intros Hr Hs. apply reachable_inv in Hr as [H1 H2].
  apply H2. by apply H1.
Qed.

(** ** Connection registry *)

Lemma register_lookup io sid A :
  Io.activeConnections (Io.on_connection sid A io).1 !! A = Some sid
  ∧ Io.isUserOnline (Io.on_connection sid A io).1 A = true.
Proof.
  unfold Io.isUserOnline. simpl. rewrite lookup_insert_eq.
  split; [done | by apply bool_decide_eq_true].
Qed.

Lemma unregister_lookup io sid A :
  Io.activeConnections (Io.on_disconnect sid A io).1 !! A = None
  ∧ Io.isUserOnline (Io.on_disconnect sid A io).1 A = false.
Proof.
  unfold Io.isUserOnline. simpl. rewrite lookup_delete_eq.
  split; [done | apply bool_decide_eq_false; by intros [? ?]].
Qed.

(** C1 (the code departs from the claim).  Connection [c1] registers
    for identity [A], then [c2] registers for [A], then the disconnect
    handler of the stale [c1] runs.  The handler deletes the entry of
    [A] without comparing the stored handle with its own socket: the
    lookup of [A], which returned [c2], now returns nothing and
    [isUserOnline A] is false, although [c2] is still connected as [A]
    and still sits in the room of [A]. *)
Theorem stale_disconnect_removes_entry io c1 c2 A :
  Io.sockets io !! c1 = None →
  Io.sockets io !! c2 = None →
  c1 ≠ c2 →
  let io1 := (Io.on_connection c1 A io).1 in
  let io2 := (Io.on_connection c2 A io1).1 in
  let io3 := (Io.on_disconnect c1 A io2).1 in
  Io.activeConnections io2 !! A = Some c2
  ∧ Io.sockets io3 !! c2 = Some A
  ∧ c2 ∈ Io.room_members io3 (Io.user_room A)
  ∧ Io.activeConnections io3 !! A = None
  ∧ Io.isUserOnline io3 A = false.
Proof.
  intros H1 H2 Hne io1 io2 io3.
  split; [apply register_lookup|].
  split.
  { simpl. rewrite lookup_delete_ne by done. by rewrite lookup_insert_eq. }
  split.
  { subst io3 io2. rewrite room_members_disconnect, room_members_connect.
    rewrite decide_True by done.
    rewrite elem_of_difference, elem_of_union, !elem_of_singleton.
    split; [by left | congruence]. }
  apply unregister_lookup.
Qed.

Lemma stale_disconnect_removes_entry_witness :
  Io.sockets Io.init !! "c1" = None
  ∧ Io.sockets Io.init !! "c2" = None
  ∧ "c1" ≠ "c2"
  ∧ let io3 :=
      (Io.on_disconnect "c1" "A"
         (Io.on_connection "c2" "A"
            (Io.on_connection "c1" "A" Io.init).1).1).1 in
    Io.sockets io3 !! "c2" = Some "A" ∧ Io.isUserOnline io3 "A" = false.
Proof.
  assert (H1 : Io.sockets Io.init !! "c1" = None) by reflexivity.
  assert (H2 : Io.sockets Io.init !! "c2" = None) by reflexivity.
  assert (Hne : "c1" ≠ "c2") by discriminate.
  split; [exact H1|]. split; [exact H2|]. split; [exact Hne|].
  destruct (stale_disconnect_removes_entry Io.init "c1" "c2" "A" H1 H2 Hne)
    as (_ & Hs & _ & _ & Ho).
  split; [exact Hs | exact Ho].
Defined.

(** ** Presence broadcast *)

(** C9.  Registering connection [sid] for identity [A] broadcasts the
    online event of [A]: every connected socket, the new one included
    and every handle stored in the registry included, is sent that
    event exactly once and nothing else.  The disconnect of [sid]
    broadcasts the offline event of [A] exactly once to every remaining
    connection, and nothing to the closed one. *)
Theorem presence_broadcast_once io sid A :
  Io.reachable io →
  (Io.sockets io !! sid = None →
   let io' := (Io.on_connection sid A io).1 in
   let out := (Io.on_connection sid A io).2 in
   Io.activeConnections io' !! A = Some sid
   ∧ (∀ s ev, Io.received s ev out =
        if bool_decide (is_Some (Io.sockets io' !! s)
                        ∧ ev = user_status A online) then 1 else 0)
   ∧ Io.received sid (user_status A online) out = 1
   ∧ (∀ u s, Io.activeConnections io' !! u = Some s →
        Io.received s (user_status A online) out = 1))
  ∧
  (Io.sockets io !! sid = Some A →
   let io' := (Io.on_disconnect sid A io).1 in
   let out := (Io.on_disconnect sid A io).2 in
   Io.sockets io' = delete sid (Io.sockets io)
   ∧ (∀ s ev, Io.received s ev out =
        if bool_decide (is_Some (Io.sockets io' !! s)
                        ∧ ev = user_status A offline) then 1 else 0)
   ∧ Io.received sid (user_status A offline) out = 0
   ∧ (∀ u s, Io.activeConnections io' !! u = Some s →
        Io.received s (user_status A offline) out = 1)).
Proof.
  intros Hreach. split.
  - intros Hfresh io' out.
    assert (Hlive : registry_live io').
    { apply reachable_inv. eapply Io.reachable_step; [exact Hreach|].
      by apply Io.step_connect. }
    assert (Hcount : ∀ s ev, Io.received s ev out =
        if bool_decide (is_Some (Io.sockets io' !! s)
                        ∧ ev = user_status A online) then 1 else 0).
    { intros s ev. subst out io'. unfold Io.on_connection. cbn [fst snd].
      by rewrite received_io_emit. }
    split; [apply register_lookup|]. split; [exact Hcount|]. split.
    + rewrite Hcount, bool_decide_eq_true_2; [done|].
      split; [|done]. subst io'. simpl. by rewrite lookup_insert_eq.
    + intros u s Hs. rewrite Hcount, bool_decide_eq_true_2; [done|].
      split; [|done]. apply Hlive in Hs. by rewrite Hs.
  - intros Hconn io' out.
    assert (Hlive : registry_live io').
    { apply reachable_inv. eapply Io.reachable_step; [exact Hreach|].
      by apply Io.step_disconnect. }
    assert (Hcount : ∀ s ev, Io.received s ev out =
        if bool_decide (is_Some (Io.sockets io' !! s)
                        ∧ ev = user_status A offline) then 1 else 0).
    { intros s ev. subst out io'. unfold Io.on_disconnect. cbn [fst snd].
      by rewrite received_io_emit. }
    split; [done|]. split; [exact Hcount|]. split.
    + rewrite Hcount, bool_decide_eq_false_2; [done|].
      intros [[x Hx] _]. subst io'. simpl in Hx.
      by rewrite lookup_delete_eq in Hx.
    + intros u s Hs. rewrite Hcount, bool_decide_eq_true_2; [done|].
      split; [|done]. apply Hlive in Hs. by rewrite Hs.
Qed.

Lemma io_A_reachable : Io.reachable Scenario.io_A.
Proof.
  eapply Io.reachable_step; [apply Io.reachable_init|].
  by apply Io.step_connect.
Defined.

Lemma presence_broadcast_once_witness :
  Io.reachable Scenario.io_A
  ∧ (Io.sockets Scenario.io_A !! "c2" = None
     ∧ Io.received "c1" (user_status "B" online)
         (Io.on_connection "c2" "B" Scenario.io_A).2 = 1
     ∧ Io.received "c2" (user_status "B" online)
         (Io.on_connection "c2" "B" Scenario.io_A).2 = 1)
  ∧ (Io.sockets Scenario.io_A !! "c1" = Some "A"
     ∧ Io.received "c1" (user_status "A" offline)
         (Io.on_disconnect "c1" "A" Scenario.io_A).2 = 0).
Proof.
  split; [exact io_A_reachable|]. split.
  - assert (H : Io.sockets Scenario.io_A !! "c2" = None) by reflexivity.
    split; [exact H|].
    destruct (presence_broadcast_once Scenario.io_A "c2" "B" io_A_reachable) as [Hc _].
    destruct (Hc H) as (Hreg & _ & Hown & Hall).
    split; [|exact Hown]. apply (Hall "A" "c1"). reflexivity.
  - assert (H : Io.sockets Scenario.io_A !! "c1" = Some "A") by reflexivity.
    split; [exact H|].
    destruct (presence_broadcast_once Scenario.io_A "c1" "A" io_A_reachable) as [_ Hd].
    destruct (Hd H) as (_ & _ & Hgone & _). exact Hgone.
Defined.

(** ** Read state of notifications *)

Lemma set_nr_read_id r : nr_isRead r = true → Prisma.set_nr_read r = r.
Proof. destruct r. simpl. by intros ->. Qed.

Lemma count_unread_after_mark U (rows : list NotificationReceiver) :
  length (filter (λ r, nr_userId r = U ∧ nr_isRead r = false)
            ((λ r, if bool_decide (nr_userId r = U ∧ nr_isRead r = false)
                   then Prisma.set_nr_read r else r) <$> rows)) = 0.
Proof.
  induction rows as [|r rows IH]; [done|].
  rewrite fmap_cons, filter_cons. case_decide as Hd; [|exact IH].
  exfalso. case_bool_decide as Hb; simpl in Hd; [by destruct Hd | done].
Qed.

Lemma mark_all_nothing_unread U db :
  Prisma.notificationReceiver_count_unread U db = 0 →
  Prisma.notificationReceiver_updateMany_read U db = db.
Proof.
  unfold Prisma.notificationReceiver_count_unread,
    Prisma.notificationReceiver_updateMany_read, Prisma.with_notifications.
  destruct db as [us ps ls ms ns rows]. simpl. intros Hz. f_equal.
  induction rows as [|r rows IH]; [done|].
  rewrite filter_cons in Hz. rewrite fmap_cons.
  case_decide as Hd; [done|].
  rewrite bool_decide_eq_false_2 by done. f_equal. by apply IH.
Qed.

(** C8.  [PUT /read-all] for identity [U] answers 200 whatever the
    rows are; afterwards every receiver row of [U] is read, the unread
    count of [U] (the number of rows of [U] with [isRead = false]) is 0
    and [GET /unread/count] answers 0.  Each row keeps its place and its
    other columns, rows of other identities and the other tables are
    untouched. *)
Theorem mark_all_read_clears_unread U db :
  let db' := (Routes.put_read_all U db).1 in
  status (Routes.put_read_all U db).2 = 200
  ∧ (∀ r, r ∈ notification_receivers db' → nr_userId r = U →
       nr_isRead r = true)
  ∧ Prisma.notificationReceiver_count_unread U db'
    = length (filter (λ r, nr_userId r = U ∧ nr_isRead r = false)
                (notification_receivers db'))
  ∧ Prisma.notificationReceiver_count_unread U db' = 0
  ∧ Routes.get_unread_count U db'
    = (db', {| status := 200; body := json_count 0 |})
  ∧ (Prisma.notificationReceiver_count_unread U db = 0 → db' = db)
  ∧ length (notification_receivers db') = length (notification_receivers db)
  ∧ (∀ i r, notification_receivers db !! i = Some r →
       ∃ r', notification_receivers db' !! i = Some r'
         ∧ nr_id r' = nr_id r ∧ nr_notificationId r' = nr_notificationId r
         ∧ nr_userId r' = nr_userId r ∧ nr_createdAt r' = nr_createdAt r
         ∧ nr_isRead r' = (if bool_decide (nr_userId r = U) then true
                           else nr_isRead r))
  ∧ users db' = users db ∧ posts db' = posts db ∧ likes db' = likes db
  ∧ messages db' = messages db ∧ notifications db' = notifications db.
Proof.
  intros db'. subst db'. unfold Routes.put_read_all, Routes.get_unread_count.
  cbn [fst snd status].
  assert (Hzero : Prisma.notificationReceiver_count_unread U
                    (Prisma.notificationReceiver_updateMany_read U db) = 0)
    by apply count_unread_after_mark.
  split; [done|]. split.
  { simpl. intros r Hr Hu. apply list_elem_of_fmap in Hr as (r0 & -> & _).
    case_bool_decide as Hb; [done|].
    destruct (nr_isRead r0) eqn:E; [done|]. by destruct Hb. }
  split; [done|]. split; [exact Hzero|]. split; [by rewrite Hzero|].
  split; [apply mark_all_nothing_unread|].
  simpl. split; [by rewrite length_fmap|]. split; [|done].
  intros i r Hi. rewrite list_lookup_fmap, Hi. simpl. eexists. split; [done|].
  case_bool_decide as Hb.
  - destruct Hb as [Hu _]. simpl. by rewrite bool_decide_eq_true_2.
  - repeat split. case_bool_decide as Hu; [|done].
    destruct (nr_isRead r) eqn:E; [done|]. by destruct Hb.
Qed.

(** ** Conversation history *)

Lemma set_read_id m : m_isRead m = true → Prisma.set_read m = m.
Proof. destruct m. simpl. by intros ->. Qed.

Lemma js_number_safe z :
  (- max_safe_integer ≤ z ≤ max_safe_integer)%Z → js_number z = z.
Proof.
  unfold js_number, max_safe_integer.
  change (2 ^ 53)%Z with 9007199254740992%Z. intros H.
  by destruct (Z.ltb_spec (Z.abs z) 9007199254740992); [|lia].
Qed.

(** Beyond the exact range a number is the nearest double: 2^53 + 1 is
    2^53, 2^53 + 3 is 2^53 + 4, and the largest 64-bit integer is 2^63,
    which 64 bits do not hold. *)
Lemma js_number_rounds :
  js_number (2 ^ 53 + 1) = (2 ^ 53)%Z
  ∧ js_number (2 ^ 53 + 3) = (2 ^ 53 + 4)%Z
  ∧ js_number (- (2 ^ 53 + 3)) = (- (2 ^ 53 + 4))%Z
  ∧ js_number Prisma.int64_max = (2 ^ 63)%Z
  ∧ Prisma.fits_int64 (js_number Prisma.int64_max) = false.
Proof. vm_compute. repeat split. Qed.

Lemma or_default_number q d :
  (- max_safe_integer ≤ or_default q d ≤ max_safe_integer)%Z →
  or_default (js_number <$> q) d = or_default q d.
Proof.
  destruct q as [z|]; [|done]. simpl.
  destruct (Z.eqb_spec z 0) as [->|Hz]; [done|].
  intros H. rewrite (js_number_safe z H).
  by destruct (Z.eqb_spec z 0).
Qed.

Lemma page_request_exact qpage qlimit :
  page_request (or_default qpage 1) (or_default qlimit 20) →
  or_default (js_number <$> qpage) 1 = or_default qpage 1
  ∧ or_default (js_number <$> qlimit) 20 = or_default qlimit 20
  ∧ js_number (js_number (or_default qpage 1 - 1) * or_default qlimit 20)
    = ((or_default qpage 1 - 1) * or_default qlimit 20)%Z.
Proof.
  intros (Hp & Hl & Hs).
  assert (0 ≤ (or_default qpage 1 - 1) * or_default qlimit 20)%Z by nia.
  assert (0 ≤ max_safe_integer)%Z by (by vm_compute).
  split; [apply or_default_number; lia|].
  split; [apply or_default_number; lia|].
  rewrite (js_number_safe (or_default qpage 1 - 1)) by lia.
  apply js_number_safe. lia.
Qed.

Lemma page_request_fits page limit :
  page_request page limit →
  Prisma.fits_int64 ((page - 1) * limit) = true
  ∧ Prisma.fits_int64 limit = true
  ∧ (0 ≤ (page - 1) * limit)%Z ∧ (0 < limit)%Z.
Proof.
  unfold page_request, Prisma.fits_int64, Prisma.int64_min, Prisma.int64_max,
    max_safe_integer.
  intros (Hp & Hl & Hs).
  assert (0 ≤ (page - 1) * limit)%Z by nia.
  repeat split; try lia; apply andb_true_intro; split; lia.
Qed.

Lemma page_request_default :
  page_request (or_default None 1) (or_default None 20).
Proof. unfold page_request, max_safe_integer. simpl. lia. Defined.

Lemma paginate_forward {A} (skip take_ : Z) (l : list A) :
  Prisma.fits_int64 skip = true → Prisma.fits_int64 take_ = true →
  (0 ≤ skip)%Z → (0 ≤ take_)%Z →
  Prisma.paginate skip take_ l
  = inr (take (Z.to_nat take_) (drop (Z.to_nat skip) l)).
Proof.
  intros Hfs Hft Hs Ht. unfold Prisma.paginate. rewrite Hfs, Hft. simpl.
  destruct (Z.ltb_spec skip 0) as [?|_]; [lia|].
  destruct (Z.leb_spec 0 take_) as [_|?]; [done|lia].
Qed.

Lemma paginate_request {A} page limit (l : list A) :
  page_request page limit →
  Prisma.paginate ((page - 1) * limit) limit l
  = inr (take (Z.to_nat limit) (drop (Z.to_nat ((page - 1) * limit)) l)).
Proof.
  intros H. destruct (page_request_fits _ _ H) as (? & ? & ? & ?).
  apply paginate_forward; [done|done|lia|lia].
Qed.

Lemma paginate_refused {A} skip take_ (l : list A) :
  Prisma.fits_int64 skip = false ∨ Prisma.fits_int64 take_ = false →
  Prisma.paginate skip take_ l = inl ValidationError.
Proof.
  unfold Prisma.paginate. intros [-> | ->]; [done|].
  by rewrite orb_true_r.
Qed.

Lemma conversation_unknown_user scan U P qpage qlimit db :
  Prisma.find_user P db = None →
  Routes.get_conversation scan U P qpage qlimit db
  = (db, {| status := 404; body := json_msg "User not found" |}).
Proof. intros H. unfold Routes.get_conversation. by rewrite H. Qed.

(** A page size beyond 64 bits makes [findMany] throw: the route
    answers 500 before its [updateMany], and nothing is written. *)
Lemma conversation_refused scan U P qpage qlimit db :
  is_Some (Prisma.find_user P db) →
  Prisma.fits_int64 (or_default (js_number <$> qlimit) 20) = false →
  Routes.get_conversation scan U P qpage qlimit db
  = (db, {| status := 500; body := json_msg "Error fetching conversation" |}).
Proof.
  intros [up Hup] H. unfold Routes.get_conversation. rewrite Hup.
  unfold Prisma.message_findMany_conversation.
  rewrite paginate_refused; [done | by right].
Qed.

(** Page sizes of 10^20 and of 2^63 - 1 are such requests: the unread
    message of the conversation stays unread. *)
Lemma conversation_limit_too_large :
  Routes.get_conversation Scenario.scan0 "B" "A" None (Some (10 ^ 20)%Z)
    (Scenario.db_m1 false)
  = (Scenario.db_m1 false,
     {| status := 500; body := json_msg "Error fetching conversation" |})
  ∧ Routes.get_conversation Scenario.scan0 "B" "A" None
      (Some Prisma.int64_max) (Scenario.db_m1 false)
    = (Scenario.db_m1 false,
       {| status := 500; body := json_msg "Error fetching conversation" |}).
Proof. vm_compute. split; reflexivity. Qed.

(** What the route does on a page request. *)
Lemma conversation_request scan U P qpage qlimit db :
  is_Some (Prisma.find_user P db) →
  page_request (or_default qpage 1) (or_default qlimit 20) →
  Routes.get_conversation scan U P qpage qlimit db
  = (Prisma.message_updateMany_read P U db,
     {| status := 200;
        body :=
          json_conversation
            (rev (omap (Prisma.load_sender db)
                    (take (Z.to_nat (or_default qlimit 20))
                       (drop (Z.to_nat ((or_default qpage 1 - 1)
                                        * or_default qlimit 20))
                          (Prisma.order_desc scan
                             (filter
                                (λ m, Prisma.in_conversation U P m = true)
                                (messages db)))))))
            (or_default qpage 1) (or_default qlimit 20)
            (Prisma.message_count_conversation U P
               (Prisma.message_updateMany_read P U db))
            (ceil_div
               (Z.of_nat (Prisma.message_count_conversation U P
                            (Prisma.message_updateMany_read P U db)))
               (or_default qlimit 20)) |}).
Proof.
  intros [up Hup] Hreq.
  destruct (page_request_exact _ _ Hreq) as (Hp & Hl & Hs).
  unfold Routes.get_conversation. cbv zeta. rewrite Hup, Hp, Hl, Hs.
  unfold Prisma.message_findMany_conversation.
  by rewrite (paginate_request _ _ _ Hreq).
Qed.

Lemma conversation_served scan U P qpage qlimit db :
  is_Some (Prisma.find_user P db) →
  page_request (or_default qpage 1) (or_default qlimit 20) →
  (Routes.get_conversation scan U P qpage qlimit db).1
  = Prisma.message_updateMany_read P U db
  ∧ status (Routes.get_conversation scan U P qpage qlimit db).2 = 200.
Proof.
  intros HP Hreq. by rewrite (conversation_request _ _ _ _ _ _ HP Hreq).
Qed.


(** ** Read receipts *)

Lemma find_message_Some i db m :
  Prisma.find_message i db = Some m → m ∈ messages db ∧ m_id m = i.
Proof.
  unfold Prisma.find_message. intros H. apply find_some in H as [Hin Hb].
  split; [by apply list_elem_of_In | by apply bool_decide_eq_true in Hb].
Qed.

Lemma find_message_fmap i (f : Message → Message) (l : list Message) :
  (∀ m, m_id (f m) = m_id m) →
  find (λ m, bool_decide (m_id m = i)) (f <$> l)
  = f <$> find (λ m, bool_decide (m_id m = i)) l.
Proof.
  intros Hf. induction l as [|m l IH]; [done|].
  rewrite fmap_cons. simpl. rewrite Hf. by destruct (bool_decide (m_id m = i)).
Qed.

Lemma primary_key_unique (l : list Message) m m' :
  NoDup (m_id <$> l) → m ∈ l → m' ∈ l → m_id m = m_id m' → m = m'.
Proof.
  induction l as [|x l IH]; intros Hnd Hm Hm' Hid; [by apply elem_of_nil in Hm|].
  rewrite fmap_cons in Hnd. apply NoDup_cons in Hnd as [Hx Hnd].
  apply elem_of_cons in Hm as [->|Hm]; apply elem_of_cons in Hm' as [->|Hm'].
  - done.
  - exfalso. apply Hx. rewrite Hid. by apply list_elem_of_fmap_2.
  - exfalso. apply Hx. rewrite <- Hid. by apply list_elem_of_fmap_2.
  - by apply IH.
Qed.

(** The handler on an id that names a row: the row is set read and the
    receipt goes to the room of its sender, whatever the row's read
    state was. *)
Lemma on_message_read_found sid userId i io db m :
  Prisma.find_message i db = Some m →
  Socket.on_message_read sid userId (Some i) io db
  = (Prisma.with_messages db
       ((λ m, if bool_decide (m_id m = i) then Prisma.set_read m else m)
          <$> messages db),
     Io.socket_to_emit io sid (Io.user_room (m_senderId m)) (message_read i),
     Done).
Proof.
  intros Hm. unfold Socket.on_message_read, Prisma.message_update_read.
  rewrite Hm. unfold Prisma.message_findUnique, Prisma.find_message.
  cbn [messages Prisma.with_messages]. rewrite find_message_fmap.
  - unfold Prisma.find_message in Hm. rewrite Hm. simpl.
    apply find_some in Hm as [_ Hb]. rewrite Hb. simpl.
    by apply bool_decide_eq_true in Hb as ->.
  - intros m0. by case_bool_decide.
Qed.

Lemma mark_read_again_same_store i db m :
  NoDup (m_id <$> messages db) →
  Prisma.find_message i db = Some m → m_isRead m = true →
  Prisma.with_messages db
    ((λ m, if bool_decide (m_id m = i) then Prisma.set_read m else m)
       <$> messages db) = db.
Proof.
  intros Hnd Hm Hread. apply find_message_Some in Hm as [Hin Hid].
  destruct db as [us ps ls ms ns rs]. unfold Prisma.with_messages. simpl in *.
  f_equal. rewrite <- (list_fmap_id ms) at 2. apply list_fmap_ext.
  intros k x Hx. simpl. case_bool_decide as Hi; [|done].
  assert (x = m) as ->.
  { eapply primary_key_unique; [done| |done|congruence].
    by eapply list_elem_of_lookup_2. }
  by apply set_read_id.
Qed.

(** C2 (as the code has it).  For a message already marked read,
    marking it read again does not fail and leaves the store as it is;
    it does push the read receipt again: one copy to every socket in the
    room of the message's sender other than the reader's own socket, and
    nothing to anyone else. *)
Theorem mark_read_again sid reader i io db m :
  NoDup (m_id <$> messages db) →
  Prisma.find_message i db = Some m →
  m_isRead m = true →
  Socket.on_message_read sid reader (Some i) io db
  = (db,
     Io.socket_to_emit io sid (Io.user_room (m_senderId m)) (message_read i),
     Done)
  ∧ ∀ s ev,
      Io.received s ev
        (Socket.on_message_read sid reader (Some i) io db).1.2
      = if bool_decide ((s ∈ Io.room_members io (Io.user_room (m_senderId m))
                         ∧ s ≠ sid) ∧ ev = message_read i)
        then 1 else 0.
Proof.
  intros Hnd Hm Hread.
  rewrite (on_message_read_found _ _ _ _ _ _ Hm).
  rewrite (mark_read_again_same_store _ _ _ Hnd Hm Hread).
  split; [done|]. intros s ev. cbn [fst snd].
  apply received_socket_to_emit.
Qed.

Lemma mark_read_again_witness :
  NoDup (m_id <$> messages (Scenario.db_m1 true))
  ∧ Prisma.find_message "m1" (Scenario.db_m1 true) = Some (Scenario.m1 true)
  ∧ m_isRead (Scenario.m1 true) = true
  ∧ Socket.on_message_read "c2" "B" (Some "m1") Scenario.io_AB
      (Scenario.db_m1 true)
    = (Scenario.db_m1 true,
       Io.socket_to_emit Scenario.io_AB "c2" (Io.user_room "A")
         (message_read "m1"),
       Done).
Proof.
  assert (H1 : NoDup (m_id <$> messages (Scenario.db_m1 true))).
  { simpl. apply NoDup_singleton. }
  assert (H2 : Prisma.find_message "m1" (Scenario.db_m1 true)
               = Some (Scenario.m1 true)) by reflexivity.
  assert (H3 : m_isRead (Scenario.m1 true) = true) by reflexivity.
  split; [exact H1|]. split; [exact H2|]. split; [exact H3|].
  exact (proj1 (mark_read_again "c2" "B" "m1" Scenario.io_AB
                  (Scenario.db_m1 true) (Scenario.m1 true) H1 H2 H3)).
Defined.

(** C2 fails as stated: B marks the message of A read, then marks it
    read again; the second call sends A's socket the receipt once
    more. *)
Lemma mark_read_again_emits :
  let first :=
    Socket.on_message_read "c2" "B" (Some "m1") Scenario.io_AB
      (Scenario.db_m1 false) in
  let second :=
    Socket.on_message_read "c2" "B" (Some "m1") Scenario.io_AB first.1.1 in
  first = (Scenario.db_m1 true, [("c1", message_read "m1")], Done)
  ∧ second = (Scenario.db_m1 true, [("c1", message_read "m1")], Done)
  ∧ Io.received "c1" (message_read "m1") second.1.2 = 1.
Proof. vm_compute. repeat split. Qed.

(** C7.  For an id that names no message, marking it read changes no
    row (the store afterwards is the store before), emits no event to
    anyone (no [message:read] in particular) and sends nothing to the
    calling client.  The update raises record-not-found for the missing
    row; the handler catches the error itself and only logs it, so no
    error reaches the caller. *)
Theorem mark_read_unknown_id sid reader i io db :
  Prisma.find_message i db = None →
  Prisma.message_update_read (Some i) db = inl P2025
  ∧ Socket.on_message_read sid reader (Some i) io db = (db, [], Caught P2025)
  ∧ (∀ s ev,
       Io.received s ev
         (Socket.on_message_read sid reader (Some i) io db).1.2 = 0).
Proof.
  intros Hm.
  assert (Hupdate : Prisma.message_update_read (Some i) db = inl P2025).
  { unfold Prisma.message_update_read. by rewrite Hm. }
  assert (Hrun : Socket.on_message_read sid reader (Some i) io db
                 = (db, [], Caught P2025)).
  { unfold Socket.on_message_read. by rewrite Hupdate. }
  split; [exact Hupdate|]. split; [exact Hrun|].
  intros s ev. by rewrite Hrun.
Qed.

Lemma mark_read_unknown_id_witness :
  Prisma.find_message "m2" (Scenario.db_m1 false) = None
  ∧ Socket.on_message_read "c2" "B" (Some "m2") Scenario.io_AB
      (Scenario.db_m1 false)
    = (Scenario.db_m1 false, [], Caught P2025).
Proof.
  assert (H : Prisma.find_message "m2" (Scenario.db_m1 false) = None)
    by reflexivity.
  split; [exact H|].
  exact (proj1 (proj2 (mark_read_unknown_id "c2" "B" "m2" Scenario.io_AB
                         (Scenario.db_m1 false) H))).
Defined.

(** ** Creating messages and notifications *)

Lemma message_create_ok g k c A B db ua ub :
  Prisma.find_user A db = Some ua →
  Prisma.find_user B db = Some ub →
  uuid g k ∉ m_id <$> messages db →
  Prisma.message_create g k (Some c) A (Some B) db
  = inr ({| m_id := uuid g k; m_content := c; m_createdAt := now g;
            m_isRead := false; m_senderId := A; m_receiverId := B |},
         ua, ub,
         Prisma.with_messages db
           (messages db ++
            [ {| m_id := uuid g k; m_content := c; m_createdAt := now g;
                 m_isRead := false; m_senderId := A; m_receiverId := B |} ])).
Proof.
  intros HA HB Hfresh. unfold Prisma.message_create.
  rewrite bool_decide_eq_false_2 by done. by rewrite HA, HB.
Qed.

Lemma message_create_unknown_receiver g k c A r db :
  Prisma.find_user r db = None →
  ∃ e, Prisma.message_create g k c A (Some r) db = inl e
       ∧ (is_Some c → uuid g k ∉ m_id <$> messages db → e = P2003).
Proof.
  intros Hr. unfold Prisma.message_create.
  destruct c as [c|].
  - case_bool_decide as Hk.
    + eexists. split; [done|]. intros _ Hfresh. done.
    + rewrite Hr. destruct (Prisma.find_user A db); eexists; by split.
  - eexists. split; [done|]. by intros [? ?].
Qed.

Lemma find_message_new i db row :
  m_id row = i → i ∉ m_id <$> messages db →
  Prisma.find_message i (Prisma.with_messages db (messages db ++ [row]))
  = Some row.
Proof.
  intros Hid Hfresh. unfold Prisma.find_message. simpl.
  induction (messages db) as [|m ms IH]; simpl.
  - by rewrite bool_decide_eq_true_2.
  - rewrite fmap_cons in Hfresh. apply not_elem_of_cons in Hfresh as [Hm Hms].
    rewrite bool_decide_eq_false_2 by congruence. by apply IH.
Qed.

Lemma new_receivers_shape g k nid userIds :
  length (new_receivers g k nid userIds) = length userIds
  ∧ nr_userId <$> new_receivers g k nid userIds = userIds
  ∧ Forall (λ r, nr_isRead r = false ∧ nr_notificationId r = nid)
      (new_receivers g k nid userIds).
Proof.
  revert k. induction userIds as [|u rest IH]; intros k; simpl.
  - by repeat split.
  - destruct (IH (S k)) as (Hl & Hu & Hf). repeat split.
    + by rewrite Hl.
    + f_equal. exact Hu.
    + by constructor.
Qed.

Lemma receivers_create_ok g nid db userIds : ∀ k rows,
  Forall (λ u, is_Some (Prisma.find_user u db)) userIds →
  NoDup (nr_id <$> new_receivers g k nid userIds) →
  (∀ r, r ∈ new_receivers g k nid userIds → nr_id r ∉ nr_id <$> rows) →
  Prisma.receivers_create g k nid userIds db rows
  = inr (rows ++ new_receivers g k nid userIds).
Proof.
  induction userIds as [|u rest IH]; intros k rows Hus Hnd Hfresh; simpl.
  - by rewrite app_nil_r.
  - apply Forall_cons in Hus as [[x Hu] Hus].
    simpl in Hnd. apply NoDup_cons in Hnd as [Hk Hnd].
    assert (Hhere := Hfresh _ ltac:(left)). simpl in Hhere.
    rewrite bool_decide_eq_false_2 by done.
    rewrite Hu. rewrite IH; [by rewrite <- app_assoc | done | done |].
    intros r Hr. rewrite fmap_app, elem_of_app. intros [Hin|Hin].
    + eapply Hfresh; [|exact Hin]. simpl. by right.
    + simpl in Hin. apply list_elem_of_singleton in Hin.
      apply Hk. rewrite <- Hin. by apply list_elem_of_fmap_2.
Qed.

(** A nested create for any list of recipients: one notification, one
    unread receiver row per recipient. *)
Lemma notification_create_ok g k type entityId actorId userIds db :
  Forall (λ u, is_Some (Prisma.find_user u db)) userIds →
  uuid g k ∉ n_id <$> notifications db →
  NoDup (nr_id <$> new_receivers g (S k) (uuid g k) userIds) →
  (∀ r, r ∈ new_receivers g (S k) (uuid g k) userIds →
        nr_id r ∉ nr_id <$> notification_receivers db) →
  Prisma.notification_create g k type entityId actorId userIds db
  = inr ({| n_id := uuid g k; n_type := type; n_createdAt := now g;
            n_entityId := entityId; n_actorId := actorId |},
         Prisma.with_notifications db
           (notifications db ++
            [ {| n_id := uuid g k; n_type := type; n_createdAt := now g;
                 n_entityId := entityId; n_actorId := actorId |} ])
           (notification_receivers db
            ++ new_receivers g (S k) (uuid g k) userIds)).
Proof.
  intros Hus Hn Hnd Hfresh. unfold Prisma.notification_create.
  rewrite bool_decide_eq_false_2 by done. cbn [n_id].
  by rewrite receivers_create_ok.
Qed.

Lemma notification_create_one g k type entityId actorId u db :
  is_Some (Prisma.find_user u db) →
  uuid g k ∉ n_id <$> notifications db →
  uuid g (S k) ∉ nr_id <$> notification_receivers db →
  Prisma.notification_create g k type entityId actorId [u] db
  = inr ({| n_id := uuid g k; n_type := type; n_createdAt := now g;
            n_entityId := entityId; n_actorId := actorId |},
         Prisma.with_notifications db
           (notifications db ++
            [ {| n_id := uuid g k; n_type := type; n_createdAt := now g;
                 n_entityId := entityId; n_actorId := actorId |} ])
           (notification_receivers db ++
            [ {| nr_id := uuid g (S k); nr_notificationId := uuid g k;
                 nr_userId := u; nr_isRead := false;
                 nr_createdAt := now g |} ])).
Proof.
  intros Hu Hn Hr. apply notification_create_ok; simpl.
  - by constructor.
  - done.
  - apply NoDup_singleton.
  - intros r Hin. apply list_elem_of_singleton in Hin as ->. done.
Qed.

(** ** Sending a message over the socket *)

Lemma on_message_send_ok g sid A B c io db ua ub :
  Prisma.find_user A db = Some ua →
  Prisma.find_user B db = Some ub →
  uuid g 0 ∉ m_id <$> messages db →
  uuid g 1 ∉ n_id <$> notifications db →
  uuid g 2 ∉ nr_id <$> notification_receivers db →
  Socket.on_message_send g sid A (Some B) (Some c) io db
  = (sent_store g A B c db,
     Io.socket_to_emit io sid (Io.user_room B)
       (message_receive {| mw_message := sent_message g A B c;
                           mw_sender := ua |})
     ++ Io.socket_to_emit io sid (Io.user_room B) notification_new,
     Done).
Proof.
  intros HA HB Hm Hn Hr. unfold Socket.on_message_send.
  rewrite (message_create_ok g 0 c A B db ua ub HA HB Hm). cbn [m_receiverId].
  rewrite notification_create_one; [done | | done | done].
  unfold Prisma.find_user in *. cbn [users Prisma.with_messages].
  rewrite HB. by eexists.
Qed.

Lemma on_message_send_unknown_receiver g sid A r c io db :
  Prisma.find_user r db = None →
  ∃ e, Socket.on_message_send g sid A (Some r) c io db = (db, [], Caught e)
       ∧ (is_Some c → uuid g 0 ∉ m_id <$> messages db → e = P2003).
Proof.
  intros Hr. unfold Socket.on_message_send.
  destruct (message_create_unknown_receiver g 0 c A r db Hr) as (e & -> & He).
  eauto.
Qed.

(** C3 (as the code has it).  Socket [sid] of sender [A] sends a
    non-empty [content] to an existing receiver [B].  The message is
    persisted with the content given and can be looked up by its id.
    It is pushed exactly once to every socket in the room of [B] other
    than the sending socket itself, and to nobody else: exactly once to
    the registered connection of [B] when [B] is not the sender; not at
    all when [B] has no live connection besides the sending socket. *)
Theorem send_message_delivers g sid A B content io db ua ub :
  content ≠ "" →
  Io.reachable io →
  Io.sockets io !! sid = Some A →
  Prisma.find_user A db = Some ua →
  Prisma.find_user B db = Some ub →
  uuid g 0 ∉ m_id <$> messages db →
  uuid g 1 ∉ n_id <$> notifications db →
  uuid g 2 ∉ nr_id <$> notification_receivers db →
  let message := sent_message g A B content in
  let delivered :=
    message_receive {| mw_message := message; mw_sender := ua |} in
  let result := Socket.on_message_send g sid A (Some B) (Some content) io db in
  result.2 = Done
  ∧ m_content message = content
  ∧ messages result.1.1 = messages db ++ [message]
  ∧ Prisma.find_message (m_id message) result.1.1 = Some message
  ∧ (∀ s payload,
       Io.received s (message_receive payload) result.1.2
       = if bool_decide ((s ∈ Io.room_members io (Io.user_room B) ∧ s ≠ sid)
                         ∧ message_receive payload = delivered)
         then 1 else 0)
  ∧ (A ≠ B → ∀ sB, Io.activeConnections io !! B = Some sB →
       Io.received sB delivered result.1.2 = 1)
  ∧ ((∀ s, Io.sockets io !! s = Some B → s = sid) →
       ∀ s payload, Io.received s (message_receive payload) result.1.2 = 0).
Proof.
  intros _ Hreach Hsid HA HB Hm Hn Hr message delivered result.
  destruct (reachable_inv io Hreach) as [Hlive Hrooms].
  subst result. rewrite (on_message_send_ok g sid A B content io db ua ub)
    by done.
  cbn [fst snd].
  assert (Hcount : ∀ s payload,
       Io.received s (message_receive payload)
         (Io.socket_to_emit io sid (Io.user_room B) delivered
          ++ Io.socket_to_emit io sid (Io.user_room B) notification_new)
       = if bool_decide ((s ∈ Io.room_members io (Io.user_room B) ∧ s ≠ sid)
                         ∧ message_receive payload = delivered)
         then 1 else 0).
  { intros s payload. rewrite received_app, !received_socket_to_emit.
    rewrite (bool_decide_eq_false_2 (_ ∧ message_receive payload = notification_new))
      by (intros [_ ?]; discriminate).
    lia. }
  split; [done|]. split; [done|]. split; [done|]. split.
  { apply (find_message_new (uuid g 0) db message); done. }
  split; [exact Hcount|]. split.
  - intros Hne sB HsB. unfold delivered at 1. rewrite Hcount.
    rewrite bool_decide_eq_true_2; [done|].
    split; [|done]. split; [by apply registered_in_room|].
    intros ->. apply Hlive in HsB. congruence.
  - intros Honly s payload. rewrite Hcount.
    rewrite bool_decide_eq_false_2; [done|].
    intros [[Hin Hs] _]. apply Hrooms in Hin. by apply Hs, Honly.
Qed.

Lemma send_message_delivers_witness :
  "hi" ≠ ""
  ∧ Io.reachable Scenario.io_AB
  ∧ Io.sockets Scenario.io_AB !! "c1" = Some "A"
  ∧ Prisma.find_user "A" Scenario.db_AB = Some Scenario.alice
  ∧ Prisma.find_user "B" Scenario.db_AB = Some Scenario.bob
  ∧ (uuid Scenario.g0 0 ∉ m_id <$> messages Scenario.db_AB)
  ∧ (uuid Scenario.g0 1 ∉ n_id <$> notifications Scenario.db_AB)
  ∧ (uuid Scenario.g0 2 ∉ nr_id <$> notification_receivers Scenario.db_AB)
  ∧ Io.received "c2"
      (message_receive
         {| mw_message := sent_message Scenario.g0 "A" "B" "hi";
            mw_sender := Scenario.alice |})
      (Socket.on_message_send Scenario.g0 "c1" "A" (Some "B") (Some "hi")
         Scenario.io_AB Scenario.db_AB).1.2 = 1.
Proof.
  assert (Hc : "hi" ≠ "") by discriminate.
  assert (H0 : Io.reachable Scenario.io_AB).
  { eapply Io.reachable_step; [exact io_A_reachable|].
    by apply Io.step_connect. }
  assert (H1 : Io.sockets Scenario.io_AB !! "c1" = Some "A") by reflexivity.
  assert (H2 : Prisma.find_user "A" Scenario.db_AB = Some Scenario.alice)
    by reflexivity.
  assert (H3 : Prisma.find_user "B" Scenario.db_AB = Some Scenario.bob)
    by reflexivity.
  assert (H4 : uuid Scenario.g0 0 ∉ m_id <$> messages Scenario.db_AB)
    by apply not_elem_of_nil.
  assert (H5 : uuid Scenario.g0 1 ∉ n_id <$> notifications Scenario.db_AB)
    by apply not_elem_of_nil.
  assert (H6 : uuid Scenario.g0 2
               ∉ nr_id <$> notification_receivers Scenario.db_AB)
    by apply not_elem_of_nil.
  repeat (split; [assumption|]).
  destruct (send_message_delivers Scenario.g0 "c1" "A" "B" "hi"
              Scenario.io_AB Scenario.db_AB Scenario.alice Scenario.bob
              Hc H0 H1 H2 H3 H4 H5 H6) as (_ & _ & _ & _ & _ & Hreg & _).
  apply Hreg; [discriminate | reflexivity].
Defined.

(** C3 fails as stated: A, connected and registered, sends the
    non-empty message "hi" to A.  The message is persisted, but the sending socket is left out of
    the push to A's room, so the registered connection of the receiver
    is sent no delivery event. *)
Lemma send_to_self_not_delivered :
  let result :=
    Socket.on_message_send Scenario.g0 "c1" "A" (Some "A") (Some "hi")
      Scenario.io_A Scenario.db_AB in
  Io.activeConnections Scenario.io_A !! "A" = Some "c1"
  ∧ Io.isUserOnline Scenario.io_A "A" = true
  ∧ result.2 = Done
  ∧ messages result.1.1 = [sent_message Scenario.g0 "A" "A" "hi"]
  ∧ result.1.2 = []
  ∧ Io.received "c1"
      (message_receive
         {| mw_message := sent_message Scenario.g0 "A" "A" "hi";
            mw_sender := Scenario.alice |}) result.1.2 = 0.
Proof. vm_compute. repeat split. Qed.

(** ** Validation of a send *)

Lemma post_message_no_content g userId receiverId content db :
  falsy content = true →
  Routes.post_message g userId receiverId content db
  = (db, {| status := 400; body := json_msg "Message content is required" |}).
Proof. intros H. unfold Routes.post_message. by rewrite H. Qed.

Lemma post_message_unknown_receiver g userId r content db :
  falsy content = false →
  Prisma.find_user r db = None →
  Routes.post_message g userId (Some r) content db
  = (db, {| status := 404; body := json_msg "Receiver not found" |}).
Proof.
  intros Hc Hr. unfold Routes.post_message, Prisma.user_findUnique.
  by rewrite Hc, Hr.
Qed.

(** C4 (the code departs from the claim).  The REST route refuses a
    send whose content is empty or missing with status 400 before it
    reads or writes the store.  The socket handler has no such check:
    on the empty string it writes the message row, the notification row
    and its receiver row, and pushes the empty message to the
    receiver. *)
Theorem empty_content_is_persisted :
  let result :=
    Socket.on_message_send Scenario.g0 "c1" "A" (Some "B") (Some "")
      Scenario.io_AB Scenario.db_AB in
  result.2 = Done
  ∧ messages result.1.1 = [sent_message Scenario.g0 "A" "B" ""]
  ∧ m_content <$> messages result.1.1 = [""]
  ∧ n_type <$> notifications result.1.1 = [MESSAGE]
  ∧ nr_userId <$> notification_receivers result.1.1 = ["B"]
  ∧ result.1.2
    = [("c2", message_receive
                {| mw_message := sent_message Scenario.g0 "A" "B" "";
                   mw_sender := Scenario.alice |});
       ("c2", notification_new)]
  ∧ (∀ g userId receiverId db,
       Routes.post_message g userId receiverId (Some "") db
       = (db, {| status := 400;
                 body := json_msg "Message content is required" |})
       ∧ Routes.post_message g userId receiverId None db
         = (db, {| status := 400;
                   body := json_msg "Message content is required" |})).
Proof.
  repeat split; try (vm_compute; reflexivity);
    by apply post_message_no_content.
Qed.

(** C5.  A send to a receiver id that names no user fails and writes
    nothing.  The REST route looks the receiver up first and answers
    404.  The socket handler goes straight to the insert, which the
    store refuses because [receiverId] references [users.id]; the
    handler catches the error: no message row, no notification, no
    event. *)
Theorem unknown_receiver_fails_send g sid A r content io db :
  Prisma.find_user r db = None →
  (Routes.post_message g A (Some r) content db).1 = db
  ∧ (falsy content = false →
       Routes.post_message g A (Some r) content db
       = (db, {| status := 404; body := json_msg "Receiver not found" |}))
  ∧ (∃ e, Socket.on_message_send g sid A (Some r) content io db
          = (db, [], Caught e))
  ∧ (is_Some content → uuid g 0 ∉ m_id <$> messages db →
       Socket.on_message_send g sid A (Some r) content io db
       = (db, [], Caught P2003)).
Proof.
  intros Hr. split; [|split; [|split]].
  - destruct (falsy content) eqn:Hc.
    + by rewrite post_message_no_content.
    + by rewrite post_message_unknown_receiver.
  - intros Hc. by apply post_message_unknown_receiver.
  - destruct (on_message_send_unknown_receiver g sid A r content io db Hr)
      as (e & He & _). eauto.
  - intros Hc Hfresh.
    destruct (on_message_send_unknown_receiver g sid A r content io db Hr)
      as (e & He & HP). by rewrite He, (HP Hc Hfresh).
Qed.

Lemma unknown_receiver_fails_send_witness :
  Prisma.find_user "Z" Scenario.db_AB = None
  ∧ Routes.post_message Scenario.g0 "A" (Some "Z") (Some "hi") Scenario.db_AB
    = (Scenario.db_AB,
       {| status := 404; body := json_msg "Receiver not found" |})
  ∧ Socket.on_message_send Scenario.g0 "c1" "A" (Some "Z") (Some "hi")
      Scenario.io_AB Scenario.db_AB
    = (Scenario.db_AB, [], Caught P2003).
Proof.
  assert (H : Prisma.find_user "Z" Scenario.db_AB = None) by reflexivity.
  split; [exact H|].
  destruct (unknown_receiver_fails_send Scenario.g0 "c1" "A" "Z" (Some "hi")
              Scenario.io_AB Scenario.db_AB H) as (_ & Hrest & _ & Hsock).
  split; [by apply Hrest|].
  apply Hsock; [by eexists | apply not_elem_of_nil].
Defined.

(** ** Notification fan-out *)

Lemma like_create_notifications g k userId postId db l db1 :
  Prisma.like_create g k userId postId db = inr (l, db1) →
  notifications db1 = notifications db
  ∧ notification_receivers db1 = notification_receivers db.
Proof.
  unfold Prisma.like_create. intros H.
  repeat case_bool_decide; try discriminate.
  destruct (Prisma.find_user userId db); [|discriminate].
  destruct (Prisma.find_post postId db); [|discriminate].
  by simplify_eq/=.
Qed.

(** Liking one's own post writes no notification and no receiver row,
    however the request ends. *)
Lemma self_like_no_notification g U postId post db :
  Prisma.find_post postId db = Some post →
  p_userId post = U →
  notifications (Routes.post_like g U (Some postId) db).1 = notifications db
  ∧ notification_receivers (Routes.post_like g U (Some postId) db).1
    = notification_receivers db.
Proof.
  intros Hp Hown. unfold Routes.post_like, Prisma.post_findUnique.
  rewrite Hp. destruct (Prisma.like_findFirst _ _ _); [done|].
  destruct (Prisma.like_create _ _ _ _ _) as [e|[l db1]] eqn:Hl; [done|].
  apply like_create_notifications in Hl.
  rewrite bool_decide_eq_false_2; [done|]. intros Hne. by apply Hne.
Qed.

Lemma find_post_Some i db post :
  Prisma.find_post i db = Some post → p_id post = i.
Proof.
  unfold Prisma.find_post. intros H. apply find_some in H as [_ Hb].
  by apply bool_decide_eq_true in Hb.
Qed.

Lemma like_findFirst_None postId userId db :
  Prisma.like_findFirst postId userId db = None →
  (userId, postId) ∉ (λ l, (l_userId l, l_postId l)) <$> likes db.
Proof.
  unfold Prisma.like_findFirst.
  induction (likes db) as [|l ls IH]; simpl; [intros _; apply not_elem_of_nil|].
  case_bool_decide as Hl; [done|]. intros Hnone.
  apply not_elem_of_cons. split; [|by apply IH].
  intros [= -> ->]. by apply Hl.
Qed.

(** A first like of somebody else's post writes one LIKE notification
    for the post, from the liker, and one unread receiver row for the
    owner of the post. *)
Lemma like_notifies_owner g U postId post db :
  Prisma.find_post postId db = Some post →
  p_userId post ≠ U →
  is_Some (Prisma.find_user U db) →
  is_Some (Prisma.find_user (p_userId post) db) →
  Prisma.like_findFirst postId U db = None →
  uuid g 0 ∉ l_id <$> likes db →
  uuid g 1 ∉ n_id <$> notifications db →
  uuid g 2 ∉ nr_id <$> notification_receivers db →
  let result := Routes.post_like g U (Some postId) db in
  status result.2 = 201
  ∧ notifications result.1
    = notifications db ++
      [ {| n_id := uuid g 1; n_type := LIKE; n_createdAt := now g;
           n_entityId := Some postId; n_actorId := Some U |} ]
  ∧ notification_receivers result.1
    = notification_receivers db ++
      [ {| nr_id := uuid g 2; nr_notificationId := uuid g 1;
           nr_userId := p_userId post; nr_isRead := false;
           nr_createdAt := now g |} ].
Proof.
  intros Hp Hne [u HU] [o HO] Hnone Hl Hn Hr result. subst result.
  pose proof (find_post_Some _ _ _ Hp) as Hid.
  apply like_findFirst_None in Hnone.
  unfold Routes.post_like, Prisma.post_findUnique. rewrite Hp, Hid.
  destruct (Prisma.like_findFirst postId U db) eqn:Hfirst.
  { exfalso. unfold Prisma.like_findFirst in Hfirst.
    apply find_some in Hfirst as [Hin Hb].
    apply bool_decide_eq_true in Hb as [<- <-]. apply Hnone.
    apply list_elem_of_In in Hin.
    by apply (list_elem_of_fmap_2 (λ l, (l_userId l, l_postId l))). }
  unfold Prisma.like_create.
  rewrite !bool_decide_eq_false_2 by done. rewrite HU, Hp.
  rewrite bool_decide_eq_true_2 by done.
  rewrite notification_create_one; [done | | done | done].
  unfold Prisma.find_user in *. cbn [users]. rewrite HO. by eexists.
Qed.

(** C6 (the code departs from the claim).  Every trigger names one
    recipient.  A like of A on the post of B writes one LIKE
    notification and one unread receiver row for B, and B liking the
    own post writes neither; a message of A to B writes one MESSAGE
    notification and one unread receiver row for B.  The message
    handlers lack the check the like route has: a message of A to A,
    over the socket or over the REST route, writes a notification
    whose actor and whose one recipient are both A. *)
Theorem self_message_is_notified :
  let summary (db : Db) :=
    ((λ n, (n_type n, n_entityId n, n_actorId n)) <$> notifications db,
     (λ r, (nr_userId r, nr_isRead r)) <$> notification_receivers db) in
  let like_other := Routes.post_like Scenario.g0 "A" (Some "p1") Scenario.db_p1 in
  let like_own := Routes.post_like Scenario.g0 "B" (Some "p1") Scenario.db_p1 in
  let send_other :=
    Socket.on_message_send Scenario.g0 "c1" "A" (Some "B") (Some "hi")
      Scenario.io_AB Scenario.db_AB in
  let send_self :=
    Socket.on_message_send Scenario.g0 "c1" "A" (Some "A") (Some "hi")
      Scenario.io_A Scenario.db_AB in
  let post_self :=
    Routes.post_message Scenario.g0 "A" (Some "A") (Some "hi")
      Scenario.db_AB in
  (status like_other.2 = 201
   ∧ summary like_other.1 = ([(LIKE, Some "p1", Some "A")], [("B", false)]))
  ∧ (status like_own.2 = 201
     ∧ length (likes like_own.1) = 1
     ∧ summary like_own.1 = ([], []))
  ∧ (send_other.2 = Done
     ∧ summary send_other.1.1 = ([(MESSAGE, None, Some "A")], [("B", false)]))
  ∧ (send_self.2 = Done
     ∧ summary send_self.1.1 = ([(MESSAGE, None, Some "A")], [("A", false)]))
  ∧ (status post_self.2 = 201
     ∧ summary post_self.1 = ([(MESSAGE, None, Some "A")], [("A", false)])).
Proof. vm_compute. repeat split. Qed.


(** * Further properties *)

(** ** Presence *)

(** X1.  In every state the connection handlers can reach, a user the
    server reports online has a stored handle that is a connected
    socket of that user and sits in the user's room: [isUserOnline]
    never reports a user without a live connection. *)
Theorem online_means_connected io u :
  Io.reachable io →
  Io.isUserOnline io u = true →
  ∃ s, Io.activeConnections io !! u = Some s
       ∧ Io.sockets io !! s = Some u
       ∧ s ∈ Io.room_members io (Io.user_room u).
Proof.
  intros Hreach Hon. unfold Io.isUserOnline in Hon.
  apply bool_decide_eq_true in Hon as [s Hs]. exists s.
  destruct (reachable_inv io Hreach) as [Hlive Hrooms].
  split; [done|]. split; [by apply Hlive|]. by apply Hrooms, Hlive.
Qed.

Lemma online_means_connected_witness :
  Io.reachable Scenario.io_A
  ∧ Io.isUserOnline Scenario.io_A "A" = true
  ∧ ∃ s, Io.activeConnections Scenario.io_A !! "A" = Some s
         ∧ Io.sockets Scenario.io_A !! s = Some "A"
         ∧ s ∈ Io.room_members Scenario.io_A (Io.user_room "A").
Proof.
  split; [exact io_A_reachable|]. split; [reflexivity|].
  exact (online_means_connected Scenario.io_A "A" io_A_reachable eq_refl).
Defined.

(** X2.  When a user without any live connection connects and that
    connection then closes, the server is back where it was: the same
    registry, the same connected sockets, the same members in every
    user's room, and the user is offline. *)
Theorem connect_disconnect_round_trip io sid A :
  Io.reachable io →
  Io.sockets io !! sid = None →
  (∀ s, Io.sockets io !! s ≠ Some A) →
  let io' := (Io.on_disconnect sid A (Io.on_connection sid A io).1).1 in
  Io.activeConnections io' = Io.activeConnections io
  ∧ Io.sockets io' = Io.sockets io
  ∧ (∀ u, Io.room_members io' (Io.user_room u)
          = Io.room_members io (Io.user_room u))
  ∧ Io.isUserOnline io' A = false.
Proof.
  intros Hreach Hfresh Hnone io'.
  destruct (reachable_inv io Hreach) as [Hlive Hrooms].
  split; [|split; [|split]].
  - subst io'. simpl. rewrite delete_insert_eq. apply delete_id.
    destruct (Io.activeConnections io !! A) as [s|] eqn:Hs; [|done].
    apply Hlive in Hs. by destruct (Hnone s).
  - subst io'. simpl. rewrite delete_insert_eq. by apply delete_id.
  - intros u. subst io'.
    rewrite room_members_disconnect, room_members_connect.
    assert (Hsid : sid ∉ Io.room_members io (Io.user_room u)).
    { intros Hin. apply Hrooms in Hin. congruence. }
    apply set_eq. intros x.
    case_decide; rewrite elem_of_difference, ?elem_of_union, elem_of_singleton.
    + split; [intros [[->|?] ?]; done | intros ?; split; [by right | congruence]].
    + split; [tauto | intros ?; split; [done | congruence]].
  - apply unregister_lookup.
Qed.

Lemma connect_disconnect_round_trip_witness :
  Io.reachable Scenario.io_A
  ∧ Io.sockets Scenario.io_A !! "c2" = None
  ∧ (∀ s, Io.sockets Scenario.io_A !! s ≠ Some "B")
  ∧ Io.sockets (Io.on_disconnect "c2" "B"
                  (Io.on_connection "c2" "B" Scenario.io_A).1).1
    = Io.sockets Scenario.io_A.
Proof.
  assert (H1 : Io.sockets Scenario.io_A !! "c2" = None) by reflexivity.
  assert (H2 : ∀ s, Io.sockets Scenario.io_A !! s ≠ Some "B").
  { intros s. unfold Scenario.io_A. simpl. rewrite lookup_insert.
    case_decide; [discriminate | by rewrite lookup_empty]. }
  split; [exact io_A_reachable|]. split; [exact H1|]. split; [exact H2|].
  exact (proj1 (proj2 (connect_disconnect_round_trip Scenario.io_A "c2" "B"
                         io_A_reachable H1 H2))).
Defined.

(** ** Typing indicator *)

(** X3.  A typing signal from socket [sid] of user [A] towards
    [receiverId] is forwarded, with the sender's user id and the flag
    given, exactly once to every connected socket of the receiver other
    than [sid], and to no one else; when the receiver has no other
    connected socket nothing at all is emitted. *)
Theorem typing_relayed io sid A receiverId isTyping :
  Io.reachable io →
  let out := Io.on_message_typing sid A receiverId isTyping io in
  (∀ s ev,
     Io.received s ev out
     = if bool_decide ((Io.sockets io !! s = Some receiverId ∧ s ≠ sid)
                       ∧ ev = message_typing A isTyping)
       then 1 else 0)
  ∧ ((∀ s, Io.sockets io !! s = Some receiverId → s = sid) → out = []).
Proof.
  intros Hreach out. destruct (reachable_inv io Hreach) as [_ Hrooms].
  split.
  - intros s ev. subst out. unfold Io.on_message_typing.
    rewrite received_socket_to_emit.
    erewrite bool_decide_ext; [reflexivity|].
    by rewrite (Hrooms s receiverId).
  - intros Honly. subst out. unfold Io.on_message_typing, Io.socket_to_emit.
    assert (Io.room_members io (Io.user_room receiverId) ∖ {[sid]} = ∅) as ->.
    { apply set_eq. intros x.
      rewrite elem_of_difference, elem_of_singleton, elem_of_empty.
      rewrite (Hrooms x receiverId).
      split; [intros [Hx Hne]; by apply Hne, Honly | done]. }
    by rewrite elements_empty.
Qed.

Lemma typing_relayed_witness :
  Io.reachable Scenario.io_AB
  ∧ Io.received "c2" (message_typing "A" true)
      (Io.on_message_typing "c1" "A" "B" true Scenario.io_AB) = 1.
Proof.
  assert (H0 : Io.reachable Scenario.io_AB).
  { eapply Io.reachable_step; [exact io_A_reachable|].
    by apply Io.step_connect. }
  split; [exact H0|].
  rewrite (proj1 (typing_relayed Scenario.io_AB "c1" "A" "B" true H0)).
  reflexivity.
Defined.

(** ** What the writes keep *)

Lemma message_kept_refl m : message_kept m m.
Proof. by repeat split. Qed.

Lemma message_kept_set_read m : message_kept m (Prisma.set_read m).
Proof. by repeat split. Qed.

Lemma message_kept_trans m1 m2 m3 :
  message_kept m1 m2 → message_kept m2 m3 → message_kept m1 m3.
Proof.
  intros (?&?&?&?&?&?) (?&?&?&?&?&?). repeat split; try congruence. auto.
Qed.

Lemma receiver_kept_refl r : receiver_kept r r.
Proof. by repeat split. Qed.

Lemma receiver_kept_set_read r : receiver_kept r (Prisma.set_nr_read r).
Proof. by repeat split. Qed.

Lemma receiver_kept_trans r1 r2 r3 :
  receiver_kept r1 r2 → receiver_kept r2 r3 → receiver_kept r1 r3.
Proof.
  intros (?&?&?&?&?) (?&?&?&?&?). repeat split; try congruence. auto.
Qed.

Lemma grown_refl db : grown db db.
Proof.
  repeat split; try done.
  - intros i m Hm. exists m. split; [done | apply message_kept_refl].
  - intros i r Hr. exists r. split; [done | apply receiver_kept_refl].
Qed.

Lemma grown_trans db1 db2 db3 : grown db1 db2 → grown db2 db3 → grown db1 db3.
Proof.
  intros (Hu & Hp & Hm & Hn & Hr) (Hu' & Hp' & Hm' & Hn' & Hr').
  split; [congruence|]. split; [congruence|]. split; [|split].
  - intros i m Hi. destruct (Hm i m Hi) as (m2 & Hi2 & Hk).
    destruct (Hm' i m2 Hi2) as (m3 & Hi3 & Hk'). exists m3.
    split; [done | by eapply message_kept_trans].
  - by etrans.
  - intros i r Hi. destruct (Hr i r Hi) as (r2 & Hi2 & Hk).
    destruct (Hr' i r2 Hi2) as (r3 & Hi3 & Hk'). exists r3.
    split; [done | by eapply receiver_kept_trans].
Qed.

(** The tables a write touched, against the tables before. *)
Lemma grown_tables db db' :
  users db' = users db → posts db' = posts db →
  (∃ f new, messages db' = (f <$> messages db) ++ new
            ∧ ∀ m, message_kept m (f m)) →
  (∃ new, notifications db' = notifications db ++ new) →
  (∃ f new, notification_receivers db'
            = (f <$> notification_receivers db) ++ new
            ∧ ∀ r, receiver_kept r (f r)) →
  grown db db'.
Proof.
  intros Hu Hp (f & new & Hm & Hf) (newn & Hn) (h & newr & Hr & Hh).
  split; [done|]. split; [done|]. split; [|split].
  - intros i m Hi. exists (f m). split; [|done]. rewrite Hm.
    apply lookup_app_l_Some. by rewrite list_lookup_fmap, Hi.
  - rewrite Hn. by apply prefix_app_r.
  - intros i r Hi. exists (h r). split; [|done]. rewrite Hr.
    apply lookup_app_l_Some. by rewrite list_lookup_fmap, Hi.
Qed.

Lemma fmap_keep_app {A} (l new : list A) : l ++ new = (id <$> l) ++ new.
Proof. by rewrite list_fmap_id. Qed.

Ltac grown_same :=
  first [ by (exists id, []; split;
              [by rewrite app_nil_r, list_fmap_id
              | first [apply message_kept_refl | apply receiver_kept_refl]])
        | by (exists []; rewrite app_nil_r) ].

Lemma message_create_grown g k c A r db m s rcv db1 :
  Prisma.message_create g k c A r db = inr (m, s, rcv, db1) → grown db db1.
Proof.
  unfold Prisma.message_create. intros H.
  destruct c as [c|]; [|done]. destruct r as [r|]; [|done].
  case_bool_decide; [done|].
  destruct (Prisma.find_user A db); [|done].
  destruct (Prisma.find_user r db); [|done].
  simplify_eq. apply grown_tables; simpl; try done; try grown_same.
  eexists id, [_]. split; [apply fmap_keep_app | apply message_kept_refl].
Qed.

Lemma receivers_create_inv g nid db userIds : ∀ k rows rows',
  Prisma.receivers_create g k nid userIds db rows = inr rows' →
  rows' = rows ++ new_receivers g k nid userIds.
Proof.
  induction userIds as [|u rest IH]; intros k rows rows' H; simpl in *.
  - simplify_eq. by rewrite app_nil_r.
  - case_bool_decide; [done|].
    destruct (Prisma.find_user u db); [|done].
    apply IH in H. by rewrite H, <- app_assoc.
Qed.

Lemma notification_create_inv g k type entityId actorId userIds db n db1 :
  Prisma.notification_create g k type entityId actorId userIds db
  = inr (n, db1) →
  n = {| n_id := uuid g k; n_type := type; n_createdAt := now g;
         n_entityId := entityId; n_actorId := actorId |}
  ∧ db1 = Prisma.with_notifications db (notifications db ++ [n])
            (notification_receivers db
             ++ new_receivers g (S k) (uuid g k) userIds).
Proof.
  unfold Prisma.notification_create. intros H.
  case_bool_decide; [done|].
  destruct (Prisma.receivers_create _ _ _ _ _ _) as [e|rows] eqn:Hrows; [done|].
  apply receivers_create_inv in Hrows. simpl in Hrows. by simplify_eq.
Qed.

Lemma notification_create_grown g k type entityId actorId userIds db n db1 :
  Prisma.notification_create g k type entityId actorId userIds db
  = inr (n, db1) → grown db db1.
Proof.
  intros H. apply notification_create_inv in H as [_ ->].
  apply grown_tables; simpl; try done; try grown_same.
  - by eexists.
  - eexists id, _. split; [apply fmap_keep_app | apply receiver_kept_refl].
Qed.

Lemma message_update_read_grown i db db1 :
  Prisma.message_update_read i db = inr db1 → grown db db1.
Proof.
  unfold Prisma.message_update_read. intros H.
  destruct i as [i|]; [|done]. destruct (Prisma.find_message i db); [|done].
  simplify_eq. apply grown_tables; simpl; try done; try grown_same.
  eexists _, []. split; [by rewrite app_nil_r|].
  intros x. cbv beta. case_bool_decide;
    [apply message_kept_set_read | apply message_kept_refl].
Qed.

Lemma message_updateMany_read_grown a b db :
  grown db (Prisma.message_updateMany_read a b db).
Proof.
  apply grown_tables; simpl; try done; try grown_same.
  eexists _, []. split; [by rewrite app_nil_r|].
  intros x. cbv beta. case_bool_decide;
    [apply message_kept_set_read | apply message_kept_refl].
Qed.

Lemma receivers_updateMany_read_grown u db :
  grown db (Prisma.notificationReceiver_updateMany_read u db).
Proof.
  apply grown_tables; simpl; try done; try grown_same.
  eexists _, []. split; [by rewrite app_nil_r|].
  intros x. cbv beta. case_bool_decide;
    [apply receiver_kept_set_read | apply receiver_kept_refl].
Qed.

Lemma receiver_update_read_grown i db db1 :
  Store.notificationReceiver_update_read i db = inr db1 → grown db db1.
Proof.
  unfold Store.notificationReceiver_update_read. intros H.
  case_bool_decide; [|done].
  simplify_eq. apply grown_tables; simpl; try done; try grown_same.
  eexists _, []. split; [by rewrite app_nil_r|].
  intros x. cbv beta. case_bool_decide;
    [apply receiver_kept_set_read | apply receiver_kept_refl].
Qed.

Lemma like_create_grown g k u p db l db1 :
  Prisma.like_create g k u p db = inr (l, db1) → grown db db1.
Proof.
  unfold Prisma.like_create. intros H.
  repeat case_bool_decide; try done.
  destruct (Prisma.find_user u db); [|done].
  destruct (Prisma.find_post p db); [|done].
  simplify_eq. apply grown_tables; simpl; try done; grown_same.
Qed.

Lemma like_delete_grown i db db1 :
  Store.like_delete i db = inr db1 → grown db db1.
Proof.
  unfold Store.like_delete. intros H. case_bool_decide; [|done].
  simplify_eq. apply grown_tables; simpl; try done; grown_same.
Qed.

Lemma served_grown db db' : served db db' → grown db db'.
Proof.
  destruct 1 as [g sid u r c io db | sid u i io db | g u r c db
                | scan me u qp ql db | g u p db | u p db | u db | u i db
                | g u f db fs | g u p c db cs].
  - unfold Socket.on_message_send.
    destruct (Prisma.message_create _ _ _ _ _ _)
      as [e|[[[m s] rcv] db1]] eqn:Hm; simpl; [apply grown_refl|].
    apply message_create_grown in Hm.
    destruct (Prisma.notification_create _ _ _ _ _ _ _)
      as [e|[n db2]] eqn:Hn; simpl; [done|].
    apply notification_create_grown in Hn. by eapply grown_trans.
  - unfold Socket.on_message_read.
    destruct (Prisma.message_update_read _ _) as [e|db1] eqn:Hm; simpl;
      [apply grown_refl|].
    apply message_update_read_grown in Hm.
    destruct (Prisma.message_findUnique i db1) as [e|[m|]]; simpl; done.
  - unfold Routes.post_message. destruct (falsy c); [apply grown_refl|].
    destruct (Prisma.user_findUnique r db) as [e|[x|]]; simpl;
      try apply grown_refl.
    destruct (Prisma.message_create _ _ _ _ _ _)
      as [e|[[[m s] rcv] db1]] eqn:Hm; simpl; [apply grown_refl|].
    apply message_create_grown in Hm.
    destruct (Prisma.notification_create _ _ _ _ _ _ _)
      as [e|[n db2]] eqn:Hn; simpl; [done|].
    apply notification_create_grown in Hn. by eapply grown_trans.
  - unfold Routes.get_conversation.
    destruct (Prisma.find_user u db); simpl; [|apply grown_refl].
    destruct (Prisma.message_findMany_conversation _ _ _ _ _ _); simpl;
      [apply grown_refl | apply message_updateMany_read_grown].
  - unfold Routes.post_like.
    destruct (Prisma.post_findUnique p db) as [e|[post|]]; simpl;
      try apply grown_refl.
    destruct (Prisma.like_findFirst _ _ _); simpl; [apply grown_refl|].
    destruct (Prisma.like_create _ _ _ _ _) as [e|[l db1]] eqn:Hl; simpl;
      [apply grown_refl|].
    apply like_create_grown in Hl. case_bool_decide; [|done].
    destruct (Prisma.notification_create _ _ _ _ _ _ _)
      as [e|[n db2]] eqn:Hn; simpl; [done|].
    apply notification_create_grown in Hn. by eapply grown_trans.
  - unfold Api.delete_like.
    destruct (Prisma.find_post p db); simpl; [|apply grown_refl].
    destruct (Prisma.like_findFirst _ _ _); simpl; [|apply grown_refl].
    destruct (Store.like_delete _ _) as [e|db1] eqn:Hl; simpl;
      [apply grown_refl | by eapply like_delete_grown].
  - apply receivers_updateMany_read_grown.
  - unfold Api.put_notification_read.
    destruct (Store.notificationReceiver_findFirst _ _ _); simpl;
      [|apply grown_refl].
    destruct (Store.notificationReceiver_update_read _ _) as [e|db1] eqn:Hr;
      simpl; [apply grown_refl | by eapply receiver_update_read_grown].
  - unfold Api.post_follow. case_bool_decide; [apply grown_refl|].
    destruct (Prisma.user_findUnique f db) as [e|[x|]]; simpl;
      try apply grown_refl.
    destruct (Store.follow_findFirst _ _ _); simpl; [apply grown_refl|].
    destruct (Store.follow_create _ _ _ _ _ _); simpl; [apply grown_refl|].
    destruct (Prisma.notification_create _ _ _ _ _ _ _)
      as [e|[n db2]] eqn:Hn; simpl;
      [apply grown_refl | by eapply notification_create_grown].
  - unfold Api.post_comment. destruct c as [text|]; [|apply grown_refl].
    case_bool_decide; [apply grown_refl|].
    destruct (Prisma.post_findUnique p db) as [e|[post|]]; simpl;
      try apply grown_refl.
    destruct (Store.comment_create _ _ _ _ _ _ _) as [e|[[cm usr] cs1]]; simpl;
      [apply grown_refl|].
    case_bool_decide; [|apply grown_refl].
    destruct (Prisma.notification_create _ _ _ _ _ _ _)
      as [e|[n db2]] eqn:Hn; simpl;
      [apply grown_refl | by eapply notification_create_grown].
Qed.

(** X4.  Whatever requests the handlers serve, in whatever order and
    with whatever input, the store only grows: users and posts are not
    touched, every message and every notification receiver row stays in
    its place with its columns, a read flag never goes back to unread,
    and notifications are only appended. *)
Theorem store_only_grows db db' :
  rtc served db db' → grown db db'.
Proof.
  induction 1 as [db | db1 db2 db3 Hstep _ IH]; [apply grown_refl|].
  eapply grown_trans; [by apply served_grown | exact IH].
Qed.

Lemma store_only_grows_witness :
  rtc served (Scenario.db_m1 true)
    (Socket.on_message_send Scenario.g0 "c1" "A" (Some "B") (Some "yo")
       Scenario.io_AB
       (Routes.get_conversation Scenario.scan0 "B" "A" None None
          (Scenario.db_m1 true)).1).1.1
  ∧ grown (Scenario.db_m1 true)
      (Socket.on_message_send Scenario.g0 "c1" "A" (Some "B") (Some "yo")
         Scenario.io_AB
         (Routes.get_conversation Scenario.scan0 "B" "A" None None
            (Scenario.db_m1 true)).1).1.1.
Proof.
  assert (H : rtc served (Scenario.db_m1 true)
    (Socket.on_message_send Scenario.g0 "c1" "A" (Some "B") (Some "yo")
       Scenario.io_AB
       (Routes.get_conversation Scenario.scan0 "B" "A" None None
          (Scenario.db_m1 true)).1).1.1).
  { eapply rtc_l; [apply served_get_conversation|].
    apply rtc_once, served_message_send. }
  split; [exact H | exact (store_only_grows _ _ H)].
Defined.

(** ** The two ways to send *)

(** X5.  For a non-empty content the REST route and the socket handler
    leave the same store behind, whatever the receiver: both write the
    message row and its notification, or both write nothing; the route
    answers 201 exactly when the handler ends without an error. *)
Theorem rest_and_socket_send_agree g sid A receiverId text io db :
  text ≠ "" →
  let rest := Routes.post_message g A receiverId (Some text) db in
  let sock := Socket.on_message_send g sid A receiverId (Some text) io db in
  rest.1 = sock.1.1 ∧ (status rest.2 = 201 ↔ sock.2 = Done).
Proof.
  intros Htext rest sock. subst rest sock.
  unfold Routes.post_message, Socket.on_message_send, falsy.
  rewrite bool_decide_eq_false_2 by done.
  destruct receiverId as [r|]; [|by split].
  unfold Prisma.user_findUnique.
  destruct (Prisma.find_user r db) as [x|] eqn:Hr.
  - destruct (Prisma.message_create g 0 (Some text) A (Some r) db)
      as [e|[[[m s] rcv] db1]]; [by split|].
    destruct (Prisma.notification_create g 1 MESSAGE None (Some A)
                [m_receiverId m] db1) as [e|[n db2]]; by split.
  - destruct (message_create_unknown_receiver g 0 (Some text) A r db Hr)
      as (e & -> & _). by split.
Qed.

Lemma rest_and_socket_send_agree_witness :
  "hi" ≠ ""
  ∧ (Routes.post_message Scenario.g0 "A" (Some "B") (Some "hi")
       Scenario.db_AB).1
    = (Socket.on_message_send Scenario.g0 "c1" "A" (Some "B") (Some "hi")
         Scenario.io_AB Scenario.db_AB).1.1.
Proof.
  assert (H : "hi" ≠ "") by discriminate.
  split; [exact H|].
  exact (proj1 (rest_and_socket_send_agree Scenario.g0 "c1" "A" (Some "B")
                  "hi" Scenario.io_AB Scenario.db_AB H)).
Defined.

(** ** Unread counters *)

Lemma length_filter_fmap {A} (P Q : A → Prop)
    `{!∀ x, Decision (P x), !∀ x, Decision (Q x)} (f : A → A) (l : list A) :
  (∀ x, P (f x) ↔ Q x) →
  length (filter P (f <$> l)) = length (filter Q l).
Proof.
  intros Hiff. induction l as [|x l IH]; [done|].
  rewrite fmap_cons, !filter_cons.
  destruct (decide (P (f x))) as [HP|HP], (decide (Q x)) as [HQ|HQ]; simpl.
  - by rewrite IH.
  - by apply Hiff in HP.
  - by apply Hiff in HQ.
  - exact IH.
Qed.

Lemma length_filter_fmap_none {A} (P : A → Prop) `{!∀ x, Decision (P x)}
    (f : A → A) (l : list A) :
  (∀ x, ¬ P (f x)) → length (filter P (f <$> l)) = 0.
Proof.
  intros Hnone. induction l as [|x l IH]; [done|].
  rewrite fmap_cons, filter_cons. by rewrite decide_False.
Qed.

(** X6.  After [GET /conversation/:userId] of [U] with an existing peer
    [P] and a page request ([page] and [limit] from 1 on, limit and
    offset exact integers), in whatever order the store scans its rows,
    no unread message from [P] to [U] is left, and the unread message
    count of [U] is the number of unread messages [U] had from senders
    other than [P]; the unread counts of all other users are what they
    were. *)
Theorem conversation_fetch_clears_peer_unread scan U P qpage qlimit db :
  is_Some (Prisma.find_user P db) →
  page_request (or_default qpage 1) (or_default qlimit 20) →
  let db' := (Routes.get_conversation scan U P qpage qlimit db).1 in
  length (filter (λ m, m_senderId m = P ∧ m_receiverId m = U
                       ∧ m_isRead m = false) (messages db')) = 0
  ∧ Api.get_messages_unread_count U db'
    = (db', {| status := 200;
               body := json_count
                 (length (filter (λ m, (m_receiverId m = U
                                        ∧ m_isRead m = false)
                                       ∧ m_senderId m ≠ P)
                            (messages db))) |})
  ∧ (∀ V, V ≠ U →
       Prisma.message_count_unread V db' = Prisma.message_count_unread V db).
Proof.
  intros HP Hreq db'.
  destruct (conversation_served scan U P qpage qlimit db HP Hreq) as [Hdb _].
  subst db'. rewrite Hdb. unfold Api.get_messages_unread_count,
    Prisma.message_count_unread, Prisma.message_updateMany_read. simpl.
  split; [|split].
  - apply length_filter_fmap_none.
    intros m. case_bool_decide as Hb; simpl; [intros (_ & _ & ?); done | done].
  - do 3 f_equal. apply length_filter_fmap.
    intros m. case_bool_decide as Hb; simpl; [|tauto].
    split; [intros [_ ?]; done | intros [_ Hne]; by destruct Hb as [? _]].
  - intros V HV. rewrite <- (list_fmap_id (messages db)) at 2.
    rewrite (length_filter_fmap _ (λ m, m_receiverId m = V ∧ m_isRead m = false)
               id); [|done].
    apply length_filter_fmap.
    intros m. case_bool_decide as Hb; simpl; [|done].
    destruct Hb as (_ & Hr & _). split; intros [? _]; congruence.
Qed.

Lemma conversation_fetch_clears_peer_unread_witness :
  is_Some (Prisma.find_user "A" (Scenario.db_m1 false))
  ∧ page_request (or_default None 1) (or_default None 20)
  ∧ Prisma.message_count_unread "B" (Scenario.db_m1 false) = 1
  ∧ Api.get_messages_unread_count "B"
      (Routes.get_conversation Scenario.scan0 "B" "A" None None
         (Scenario.db_m1 false)).1
    = ((Routes.get_conversation Scenario.scan0 "B" "A" None None
          (Scenario.db_m1 false)).1,
       {| status := 200; body := json_count 0 |}).
Proof.
  assert (HP : is_Some (Prisma.find_user "A" (Scenario.db_m1 false)))
    by by eexists.
  split; [exact HP|]. split; [exact page_request_default|].
  split; [reflexivity|].
  exact (proj1 (proj2 (conversation_fetch_clears_peer_unread Scenario.scan0
                         "B" "A" None None (Scenario.db_m1 false) HP
                         page_request_default))).
Defined.

Lemma set_read_fresh_id i (l : list Message) :
  i ∉ m_id <$> l →
  (λ m, if bool_decide (m_id m = i) then Prisma.set_read m else m) <$> l = l.
Proof.
  intros Hfresh. induction l as [|m l IH]; [done|].
  rewrite fmap_cons in Hfresh. apply not_elem_of_cons in Hfresh as [Hm Hl].
  rewrite fmap_cons, IH by done. by rewrite bool_decide_eq_false_2.
Qed.

(** X7.  A send from [A] to an existing [B] raises the unread message
    count of [B] and the unread notification count of [B] by one each.
    When [B] then marks that message read, the unread message count of
    [B] is back where it was and the message is stored as read; the
    notification of the send stays unread. *)
Theorem send_then_read_counts g sid sB A B text io db ua ub :
  Prisma.find_user A db = Some ua →
  Prisma.find_user B db = Some ub →
  uuid g 0 ∉ m_id <$> messages db →
  uuid g 1 ∉ n_id <$> notifications db →
  uuid g 2 ∉ nr_id <$> notification_receivers db →
  let db1 := (Socket.on_message_send g sid A (Some B) (Some text) io db).1.1 in
  let db2 := (Socket.on_message_read sB B (Some (uuid g 0)) io db1).1.1 in
  Prisma.message_count_unread B db1 = S (Prisma.message_count_unread B db)
  ∧ Prisma.notificationReceiver_count_unread B db1
    = S (Prisma.notificationReceiver_count_unread B db)
  ∧ Prisma.find_message (uuid g 0) db2
    = Some (Prisma.set_read (sent_message g A B text))
  ∧ Prisma.message_count_unread B db2 = Prisma.message_count_unread B db
  ∧ Prisma.notificationReceiver_count_unread B db2
    = S (Prisma.notificationReceiver_count_unread B db).
Proof.
  intros HA HB Hm Hn Hr db1 db2.
  assert (Hdb1 : db1 = sent_store g A B text db).
  { subst db1. by rewrite (on_message_send_ok g sid A B text io db ua ub). }
  assert (Hfind : Prisma.find_message (uuid g 0) db1
                  = Some (sent_message g A B text)).
  { rewrite Hdb1. by apply (find_message_new (uuid g 0) db). }
  assert (Hdb2 : db2 = Prisma.with_messages db1
                         (messages db ++
                          [Prisma.set_read (sent_message g A B text)])).
  { subst db2. rewrite (on_message_read_found _ _ _ _ _ _ Hfind). cbn [fst].
    f_equal. rewrite Hdb1. cbn [messages sent_store].
    rewrite fmap_app, set_read_fresh_id by done. simpl.
    by rewrite bool_decide_eq_true_2. }
  unfold Prisma.message_count_unread, Prisma.notificationReceiver_count_unread.
  rewrite Hdb2, Hdb1. cbn [messages notification_receivers sent_store
                           Prisma.with_messages].
  rewrite !filter_app, !length_app.
  split; [|split; [|split; [|split]]].
  - rewrite (filter_cons_True _ _ []) by done. simpl. lia.
  - rewrite (filter_cons_True _ _ []) by done. simpl. lia.
  - unfold Prisma.find_message. cbn [messages].
    clear -Hm. induction (messages db) as [|m l IH]; simpl.
    + by rewrite bool_decide_eq_true_2.
    + rewrite fmap_cons in Hm. apply not_elem_of_cons in Hm as [? ?].
      rewrite bool_decide_eq_false_2 by congruence. by apply IH.
  - rewrite (filter_cons_False _ _ []) by (by intros [_ ?]). simpl. lia.
  - rewrite (filter_cons_True _ _ []) by done. simpl. lia.
Qed.

Lemma send_then_read_counts_witness :
  Prisma.find_user "A" Scenario.db_AB = Some Scenario.alice
  ∧ Prisma.find_user "B" Scenario.db_AB = Some Scenario.bob
  ∧ (uuid Scenario.g0 0 ∉ m_id <$> messages Scenario.db_AB)
  ∧ (uuid Scenario.g0 1 ∉ n_id <$> notifications Scenario.db_AB)
  ∧ (uuid Scenario.g0 2 ∉ nr_id <$> notification_receivers Scenario.db_AB)
  ∧ Prisma.message_count_unread "B"
      (Socket.on_message_send Scenario.g0 "c1" "A" (Some "B") (Some "hi")
         Scenario.io_AB Scenario.db_AB).1.1 = 1.
Proof.
  assert (H2 : Prisma.find_user "A" Scenario.db_AB = Some Scenario.alice)
    by reflexivity.
  assert (H3 : Prisma.find_user "B" Scenario.db_AB = Some Scenario.bob)
    by reflexivity.
  assert (H4 : uuid Scenario.g0 0 ∉ m_id <$> messages Scenario.db_AB)
    by apply not_elem_of_nil.
  assert (H5 : uuid Scenario.g0 1 ∉ n_id <$> notifications Scenario.db_AB)
    by apply not_elem_of_nil.
  assert (H6 : uuid Scenario.g0 2
               ∉ nr_id <$> notification_receivers Scenario.db_AB)
    by apply not_elem_of_nil.
  repeat (split; [assumption|]).
  exact (proj1 (send_then_read_counts Scenario.g0 "c1" "c2" "A" "B" "hi"
                  Scenario.io_AB Scenario.db_AB Scenario.alice Scenario.bob
                  H2 H3 H4 H5 H6)).
Defined.

(** ** Pages of a conversation *)

Lemma goes_before_newer scan m x :
  Prisma.goes_before scan m x = true → (m_createdAt x ≤ m_createdAt m)%Z.
Proof.
  unfold Prisma.goes_before.
  destruct (Z.ltb_spec (m_createdAt x) (m_createdAt m)); [lia|].
  destruct (Z.eqb_spec (m_createdAt x) (m_createdAt m)); [lia|done].
Qed.

Lemma goes_before_older scan m x :
  Prisma.goes_before scan m x = false → (m_createdAt m ≤ m_createdAt x)%Z.
Proof.
  unfold Prisma.goes_before.
  destruct (Z.ltb_spec (m_createdAt x) (m_createdAt m)); [done|lia].
Qed.

Lemma insert_desc_perm scan m l : Prisma.insert_desc scan m l ≡ₚ m :: l.
Proof.
  induction l as [|x l IH]; simpl; [done|].
  destruct (Prisma.goes_before scan m x); [done|].
  rewrite IH. apply Permutation_swap.
Qed.

Lemma order_desc_perm scan l : Prisma.order_desc scan l ≡ₚ l.
Proof.
  unfold Prisma.order_desc. induction l as [|x l IH]; simpl; [done|].
  by rewrite insert_desc_perm, IH.
Qed.

Lemma insert_desc_sorted scan m l :
  StronglySorted newer_first l →
  StronglySorted newer_first (Prisma.insert_desc scan m l).
Proof.
  induction 1 as [|x l Hl IH Hx]; simpl.
  - repeat constructor.
  - destruct (Prisma.goes_before scan m x) eqn:Hgo.
    + apply goes_before_newer in Hgo.
      constructor; [by constructor|]. constructor; [exact Hgo|].
      eapply Forall_impl; [exact Hx|]. unfold newer_first. intros y ?. lia.
    + apply goes_before_older in Hgo.
      constructor; [exact IH|]. rewrite insert_desc_perm.
      constructor; [exact Hgo | exact Hx].
Qed.

(** Whatever the scan, the rows come newest first. *)
Lemma order_desc_sorted scan l :
  StronglySorted newer_first (Prisma.order_desc scan l).
Proof.
  unfold Prisma.order_desc. induction l as [|x l IH]; simpl; [constructor|].
  by apply insert_desc_sorted.
Qed.

Lemma NoDup_fmap_elem_inj {A B} (f : A → B) (l : list A) x y :
  NoDup (f <$> l) → x ∈ l → y ∈ l → f x = f y → x = y.
Proof.
  induction l as [|z l IH]; intros Hnd Hx Hy Hf; [by apply elem_of_nil in Hx|].
  rewrite fmap_cons in Hnd. apply NoDup_cons in Hnd as [Hz Hnd].
  apply elem_of_cons in Hx as [->|Hx]; apply elem_of_cons in Hy as [->|Hy].
  - done.
  - exfalso. apply Hz. rewrite Hf. by apply list_elem_of_fmap_2.
  - exfalso. apply Hz. rewrite <- Hf. by apply list_elem_of_fmap_2.
  - by apply IH.
Qed.

(** Rows of pairwise distinct times come in one order, whatever the
    scan. *)
Lemma order_desc_scan scan scan' l :
  NoDup (m_createdAt <$> l) →
  Prisma.order_desc scan l = Prisma.order_desc scan' l.
Proof.
  intros Hnd. apply (StronglySorted_unique_strong newer_first).
  - intros x1 x2 H1 H2 R1 R2. rewrite order_desc_perm in H1, H2.
    apply (NoDup_fmap_elem_inj m_createdAt l); [done..|].
    unfold newer_first in *. lia.
  - apply order_desc_sorted.
  - apply order_desc_sorted.
  - by rewrite !order_desc_perm.
Qed.

(** Rows of one time come in the order of the scan: a scan that meets
    the later row of the table first returns it first. *)
Lemma order_desc_ties scan x y :
  m_createdAt x = m_createdAt y →
  (scan (m_id y) < scan (m_id x))%Z →
  Prisma.order_desc scan [x; y] = [y; x].
Proof.
  intros Ht Hs. unfold Prisma.order_desc. simpl. unfold Prisma.goes_before.
  rewrite Ht, Z.ltb_irrefl, Z.eqb_refl. simpl.
  by destruct (Z.leb_spec (scan (m_id x)) (scan (m_id y))); [lia|].
Qed.

Lemma sorted_take {A} (R : relation A) n l :
  StronglySorted R l → StronglySorted R (take n l).
Proof.
  intros H. revert n. induction H as [|x l Hl IH Hx]; intros [|n]; simpl;
    constructor; [apply IH | by apply Forall_take].
Qed.

Lemma sorted_drop {A} (R : relation A) n l :
  StronglySorted R l → StronglySorted R (drop n l).
Proof.
  revert l. induction n as [|n IH]; intros l H; [done|].
  destruct H; simpl; [constructor | by apply IH].
Qed.

Lemma sorted_rev {A} (R : relation A) l :
  StronglySorted R l → StronglySorted (flip R) (rev l).
Proof.
  induction 1 as [|x l Hl IH Hx]; simpl; [constructor|].
  apply StronglySorted_app. split; [|split; [done | repeat constructor]].
  intros a b Ha Hb. apply list_elem_of_singleton in Hb as ->.
  apply list_elem_of_In, in_rev, list_elem_of_In in Ha.
  rewrite Forall_forall in Hx. by apply Hx.
Qed.

Lemma load_sender_Some db m mw :
  Prisma.load_sender db m = Some mw →
  mw_message mw = m ∧ Prisma.find_user (m_senderId m) db = Some (mw_sender mw).
Proof.
  unfold Prisma.load_sender. destruct (Prisma.find_user _ _); [|done].
  simpl. by intros [= <-].
Qed.

Lemma sorted_load_sender db l :
  StronglySorted newer_first l →
  StronglySorted (λ a b, newer_first (mw_message a) (mw_message b))
    (omap (Prisma.load_sender db) l).
Proof.
  induction 1 as [|x l Hl IH Hx]; simpl; [constructor|].
  destruct (Prisma.load_sender db x) as [mw|] eqn:Hmw; [|exact IH].
  apply load_sender_Some in Hmw as [<- _]. constructor; [exact IH|].
  apply Forall_forall. intros z Hz.
  apply list_elem_of_omap in Hz as (m & Hm & Hload).
  apply load_sender_Some in Hload as [-> _].
  rewrite Forall_forall in Hx. by apply Hx.
Qed.

Lemma length_omap_le {A B} (f : A → option B) (l : list A) :
  (length (omap f l) ≤ length l)%nat.
Proof.
  induction l as [|x l IH]; [done|].
  change (omap f (x :: l))
    with (match f x with Some y => y :: omap f l | None => omap f l end).
  destruct (f x); simpl; lia.
Qed.

Lemma count_conversation_after_read a b U P db :
  Prisma.message_count_conversation a b (Prisma.message_updateMany_read P U db)
  = Prisma.message_count_conversation a b db.
Proof.
  unfold Prisma.message_count_conversation, Prisma.message_updateMany_read.
  simpl. apply length_filter_fmap. intros m. by case_bool_decide.
Qed.

(** X8.  [GET /conversation/:userId] for an existing peer and a page
    request ([page] and [limit] from 1 on, limit and offset exact
    integers), in whatever order the store scans its rows, returns at
    most [limit] messages, oldest first, every one a stored message
    between the two users with its sender attached; the rows are
    returned as they were read before the route marked anything read,
    and the total is the number of messages of the conversation. *)
Theorem conversation_page_chronological scan U P qpage qlimit db :
  is_Some (Prisma.find_user P db) →
  page_request (or_default qpage 1) (or_default qlimit 20) →
  (Z.of_nat (Prisma.message_count_conversation U P db)
   ≤ max_safe_integer)%Z →
  ∃ msgs,
    body (Routes.get_conversation scan U P qpage qlimit db).2
    = json_conversation msgs (or_default qpage 1) (or_default qlimit 20)
        (Prisma.message_count_conversation U P db)
        (ceil_div (Z.of_nat (Prisma.message_count_conversation U P db))
           (or_default qlimit 20))
    ∧ (length msgs ≤ Z.to_nat (or_default qlimit 20))%nat
    ∧ StronglySorted
        (λ a b, (m_createdAt (mw_message a) ≤ m_createdAt (mw_message b))%Z)
        msgs
    ∧ (∀ mw, mw ∈ msgs →
         mw_message mw ∈ messages db
         ∧ Prisma.in_conversation U P (mw_message mw) = true
         ∧ Prisma.find_user (m_senderId (mw_message mw)) db
           = Some (mw_sender mw)).
Proof.
  intros HP Hreq _. rewrite (conversation_request _ _ _ _ _ _ HP Hreq).
  cbn [snd body]. rewrite count_conversation_after_read.
  set (sorted := Prisma.order_desc scan
                   (filter (λ m, Prisma.in_conversation U P m = true)
                      (messages db))).
  set (page := take (Z.to_nat (or_default qlimit 20))
                 (drop (Z.to_nat ((or_default qpage 1 - 1)
                                  * or_default qlimit 20)) sorted)).
  eexists. split; [reflexivity|]. split; [|split].
  - rewrite length_rev. etrans; [apply length_omap_le|].
    subst page. rewrite length_take. lia.
  - apply (sorted_rev (λ a b, newer_first (mw_message a) (mw_message b))).
    apply sorted_load_sender. subst page.
    apply sorted_take, sorted_drop, order_desc_sorted.
  - intros mw Hmw. apply list_elem_of_In, in_rev, list_elem_of_In in Hmw.
    apply list_elem_of_omap in Hmw as (m & Hm & Hload).
    apply load_sender_Some in Hload as [Hmsg Hsender]. rewrite Hmsg.
    subst page.
    apply (subseteq_take _ _ m) in Hm. apply (subseteq_drop _ _ m) in Hm.
    subst sorted. rewrite order_desc_perm in Hm.
    apply list_elem_of_filter in Hm as [Hconv Hin]. done.
Qed.

Lemma conversation_page_chronological_witness :
  is_Some (Prisma.find_user "A" Scenario.db_m3)
  ∧ page_request (or_default (Some 2%Z) 1) (or_default (Some 2%Z) 20)
  ∧ (Z.of_nat (Prisma.message_count_conversation "B" "A" Scenario.db_m3)
     ≤ max_safe_integer)%Z
  ∧ ∃ msgs,
      body (Routes.get_conversation Scenario.scan1 "B" "A" (Some 2%Z)
              (Some 2%Z) Scenario.db_m3).2
      = json_conversation msgs 2 2 3 2
      ∧ (length msgs ≤ 2)%nat.
Proof.
  assert (HP : is_Some (Prisma.find_user "A" Scenario.db_m3)) by by eexists.
  assert (Hreq : page_request (or_default (Some 2%Z) 1)
                   (or_default (Some 2%Z) 20)).
  { unfold page_request, max_safe_integer. simpl. lia. }
  assert (Hn : (Z.of_nat (Prisma.message_count_conversation "B" "A"
                            Scenario.db_m3) ≤ max_safe_integer)%Z).
  { vm_compute. discriminate. }
  split; [exact HP|]. split; [exact Hreq|]. split; [exact Hn|].
  destruct (conversation_page_chronological Scenario.scan1 "B" "A"
              (Some 2%Z) (Some 2%Z) Scenario.db_m3 HP Hreq Hn)
    as (msgs & Hbody & Hlen & _).
  exists msgs. split; [exact Hbody | exact Hlen].
Defined.

Lemma ceil_div_pages (n page limit : Z) :
  (0 ≤ n)%Z → (1 ≤ page)%Z → (0 < limit)%Z →
  (page ≤ ceil_div n limit)%Z ↔ ((page - 1) * limit < n)%Z.
Proof.
  intros Hn Hp Hl. unfold ceil_div.
  pose proof (Z.div_mod (- n) limit ltac:(lia)) as Hdm.
  pose proof (Z.mod_pos_bound (- n) limit Hl) as Hb.
  split; intros H; nia.
Qed.

(** X9.  For a page request ([page] and [limit] from 1 on, limit and
    offset exact integers) over fewer rows than the exact integers
    count, the store accepts the page, the page holds the rows at
    offsets [(page - 1) * limit ...] in order, and the [totalPages] the
    routes compute is exact: page [page] is non-empty exactly when
    [page ≤ totalPages], and [page < totalPages] (the client's
    [hasMore]) holds exactly when a row exists beyond this page.  The
    page size a route divides by is never 0. *)
Theorem pages_match_total_pages {A} (l : list A) (page limit : Z) :
  page_request page limit →
  (Z.of_nat (length l) ≤ max_safe_integer)%Z →
  let skip := ((page - 1) * limit)%Z in
  let totalPages := ceil_div (Z.of_nat (length l)) limit in
  (∃ pg, Prisma.paginate skip limit l = inr pg
         ∧ (∀ j, (j < Z.to_nat limit)%nat →
              pg !! j = l !! (Z.to_nat skip + j)%nat)
         ∧ (pg ≠ [] ↔ (page ≤ totalPages)%Z))
  ∧ ((page < totalPages)%Z ↔ is_Some (l !! Z.to_nat (page * limit)))
  ∧ (∀ q d, d ≠ 0%Z → or_default q d ≠ 0%Z).
Proof.
  intros Hreq _ skip totalPages.
  destruct (page_request_fits _ _ Hreq) as (_ & _ & Hskip & Hl).
  assert (Hp : (1 ≤ page)%Z) by apply Hreq.
  split; [|split].
  - eexists. split; [apply (paginate_request _ _ _ Hreq)|]. split.
    + intros j Hj. by rewrite lookup_take_lt, lookup_drop.
    + subst totalPages. rewrite ceil_div_pages by lia. fold skip.
      split.
      * intros Hne.
        destruct (decide (Z.to_nat skip < length l)%nat) as [?|Hge]; [lia|].
        exfalso. apply Hne. apply nil_length_inv.
        rewrite length_take, length_drop. lia.
      * intros Hlt Hnil. apply (f_equal length) in Hnil.
        rewrite length_take, length_drop in Hnil. simpl in Hnil.
        subst skip. nia.
  - rewrite lookup_lt_is_Some. subst totalPages.
    assert (Hnext : (page + 1 ≤ ceil_div (Z.of_nat (length l)) limit)%Z
                    ↔ ((page + 1 - 1) * limit < Z.of_nat (length l))%Z)
      by (apply ceil_div_pages; lia).
    replace ((page + 1 - 1) * limit)%Z with (page * limit)%Z in Hnext by lia.
    split; intros H.
    + assert (page * limit < Z.of_nat (length l))%Z by (apply Hnext; lia).
      nia.
    + assert (page * limit < Z.of_nat (length l))%Z by nia.
      apply Hnext in H0. lia.
  - intros q d Hd. unfold or_default. destruct q as [z|]; [|done].
    destruct (Z.eqb_spec z 0); done.
Qed.

Lemma pages_match_total_pages_witness :
  page_request 2 2
  ∧ (Z.of_nat (length [1; 2; 3]) ≤ max_safe_integer)%Z
  ∧ ∃ pg, Prisma.paginate ((2 - 1) * 2) 2 [1; 2; 3] = inr pg ∧ pg ≠ [].
Proof.
  assert (H1 : page_request 2 2).
  { unfold page_request, max_safe_integer. simpl. lia. }
  assert (H2 : (Z.of_nat (length [1; 2; 3]) ≤ max_safe_integer)%Z).
  { vm_compute. discriminate. }
  split; [exact H1|]. split; [exact H2|].
  destruct (pages_match_total_pages [1; 2; 3] 2 2 H1 H2)
    as [(pg & Hpg & _ & Hne) _].
  exists pg. split; [exact Hpg|]. apply Hne. vm_compute. discriminate.
Defined.

(** ** Likes *)

Lemma find_app_last {A} (p : A → bool) (l : list A) x :
  find p l = None → p x = true → find p (l ++ [x]) = Some x.
Proof.
  intros Hl Hx. induction l as [|y l IH]; simpl in *; [by rewrite Hx|].
  destruct (p y); [done | by apply IH].
Qed.

Lemma filter_fresh_like i (l : list Like) row :
  i ∉ l_id <$> l → l_id row = i →
  filter (λ x, l_id x ≠ i) (l ++ [row]) = l.
Proof.
  intros Hfresh Hrow. rewrite filter_app.
  rewrite (filter_cons_False _ _ []) by (intros ?; done).
  rewrite filter_nil, app_nil_r.
  induction l as [|x l IH]; [done|].
  rewrite fmap_cons in Hfresh. apply not_elem_of_cons in Hfresh as [Hx Hl].
  rewrite filter_cons_True by congruence. by rewrite IH.
Qed.

(** What a like answered with 201 has found and written. *)
Lemma post_like_created g U postId db :
  status (Routes.post_like g U (Some postId) db).2 = 201 →
  ∃ post,
    Prisma.find_post postId db = Some post
    ∧ Prisma.like_findFirst postId U db = None
    ∧ (uuid g 0 ∉ l_id <$> likes db)
    ∧ posts (Routes.post_like g U (Some postId) db).1 = posts db
    ∧ likes (Routes.post_like g U (Some postId) db).1
      = likes db ++ [ {| l_id := uuid g 0; l_createdAt := now g;
                         l_userId := U; l_postId := postId |} ].
Proof.
  unfold Routes.post_like, Prisma.post_findUnique.
  destruct (Prisma.find_post postId db) as [post|] eqn:Hp; [|done].
  pose proof (find_post_Some _ _ _ Hp) as Hid. rewrite Hid.
  destruct (Prisma.like_findFirst postId U db) eqn:Hfirst; [done|].
  unfold Prisma.like_create.
  case_bool_decide as Hk; [done|]. case_bool_decide; [done|].
  destruct (Prisma.find_user U db); [|done]. rewrite Hp.
  intros Hst. exists post. do 3 (split; [done|]).
  case_bool_decide; [|done].
  destruct (Prisma.notification_create _ _ _ _ _ _ _) as [e|[n db2]] eqn:Hn;
    [done|].
  apply notification_create_inv in Hn as [_ ->]. done.
Qed.

(** X10.  After a like answered with 201: the check, which said "not
    liked" before, says "liked"; a second like of the same post by the
    same user is refused with 400 and writes nothing; the unlike is
    answered with 200 and takes exactly that like away again (the likes
    are what they were before the like), after which the check says
    "not liked".  The notification the like wrote is not taken back by
    the unlike. *)
Theorem like_round_trip g U postId db :
  status (Routes.post_like g U (Some postId) db).2 = 201 →
  let db1 := (Routes.post_like g U (Some postId) db).1 in
  let db2 := (Api.delete_like U postId db1).1 in
  Api.get_like_check U postId db = answer 200 false
  ∧ Api.get_like_check U postId db1 = answer 200 true
  ∧ (∀ g', Routes.post_like g' U (Some postId) db1
           = (db1, {| status := 400; body := json_msg "Post already liked" |}))
  ∧ status (Api.delete_like U postId db1).2 = 200
  ∧ likes db2 = likes db
  ∧ Api.get_like_check U postId db2 = answer 200 false
  ∧ notifications db2 = notifications db1
  ∧ notification_receivers db2 = notification_receivers db1.
Proof.
  intros Hst db1 db2.
  destruct (post_like_created g U postId db Hst)
    as (post & Hp & Hnone & Hfresh & Hposts & Hlikes).
  fold db1 in Hposts, Hlikes.
  assert (Hp1 : Prisma.find_post postId db1 = Some post).
  { unfold Prisma.find_post in *. by rewrite Hposts. }
  assert (Hfound : Prisma.like_findFirst postId U db1
                   = Some {| l_id := uuid g 0; l_createdAt := now g;
                             l_userId := U; l_postId := postId |}).
  { unfold Prisma.like_findFirst in *. rewrite Hlikes.
    apply find_app_last; [done|]. by apply bool_decide_eq_true. }
  assert (Hdel : Api.delete_like U postId db1
                 = (Store.with_likes db1 (likes db),
                    {| status := 200;
                       body := json_msg "Post unliked successfully" |})).
  { unfold Api.delete_like. rewrite Hp1, Hfound. unfold Store.like_delete.
    cbn [l_id]. rewrite bool_decide_eq_true_2.
    - by rewrite Hlikes, filter_fresh_like.
    - rewrite Hlikes, fmap_app. apply elem_of_app. right. by left. }
  split; [|split; [|split; [|split; [|split; [|split]]]]].
  - unfold Api.get_like_check. by rewrite Hnone.
  - unfold Api.get_like_check. by rewrite Hfound.
  - intros g'. unfold Routes.post_like, Prisma.post_findUnique.
    rewrite Hp1, (find_post_Some _ _ _ Hp). by rewrite Hfound.
  - by rewrite Hdel.
  - subst db2. by rewrite Hdel.
  - subst db2. rewrite Hdel. unfold Api.get_like_check.
    unfold Prisma.like_findFirst in *. cbn [fst likes Store.with_likes].
    by rewrite Hnone.
  - subst db2. by rewrite Hdel.
Qed.

Lemma like_round_trip_witness :
  status (Routes.post_like Scenario.g0 "A" (Some "p1") Scenario.db_p1).2 = 201
  ∧ likes (Api.delete_like "A" "p1"
             (Routes.post_like Scenario.g0 "A" (Some "p1") Scenario.db_p1).1).1
    = likes Scenario.db_p1.
Proof.
  assert (H : status (Routes.post_like Scenario.g0 "A" (Some "p1")
                        Scenario.db_p1).2 = 201) by reflexivity.
  split; [exact H|].
  destruct (like_round_trip Scenario.g0 "A" "p1" Scenario.db_p1 H)
    as (_ & _ & _ & _ & Hlikes & _).
  exact Hlikes.
Defined.

(** ** Marking one notification read *)

Lemma set_nr_read_fresh_id i (l : list NotificationReceiver) :
  i ∉ nr_id <$> l →
  (λ r, if bool_decide (nr_id r = i) then Prisma.set_nr_read r else r) <$> l
  = l.
Proof.
  intros Hfresh. induction l as [|r l IH]; [done|].
  rewrite fmap_cons in Hfresh. apply not_elem_of_cons in Hfresh as [Hr Hl].
  rewrite fmap_cons, IH by done. by rewrite bool_decide_eq_false_2.
Qed.

(** X11.  [PUT /:id/read] on a receiver row that is not the caller's
    (another user's row, or no row at all) is answered with 404 and
    changes nothing. *)
Theorem foreign_notification_not_marked U id db :
  (∀ r, r ∈ notification_receivers db → nr_id r = id → nr_userId r ≠ U) →
  Api.put_notification_read U id db
  = (db, {| status := 404; body := json_msg "Notification not found" |}).
Proof.
  intros Hforeign. unfold Api.put_notification_read.
  destruct (Store.notificationReceiver_findFirst id U db) as [r|] eqn:Hr;
    [|done].
  unfold Store.notificationReceiver_findFirst in Hr.
  apply find_some in Hr as [Hin Hb].
  apply bool_decide_eq_true in Hb as [Hid Hu].
  apply list_elem_of_In in Hin. by destruct (Hforeign r Hin Hid).
Qed.

Lemma foreign_notification_not_marked_witness :
  (∀ r, r ∈ notification_receivers Scenario.db_nr1 → nr_id r = "r1" →
        nr_userId r ≠ "A")
  ∧ Api.put_notification_read "A" "r1" Scenario.db_nr1
    = (Scenario.db_nr1,
       {| status := 404; body := json_msg "Notification not found" |}).
Proof.
  assert (H : ∀ r, r ∈ notification_receivers Scenario.db_nr1 →
                   nr_id r = "r1" → nr_userId r ≠ "A").
  { intros r Hr _. apply list_elem_of_singleton in Hr as ->. discriminate. }
  split; [exact H|].
  exact (foreign_notification_not_marked "A" "r1" Scenario.db_nr1 H).
Defined.

(** X12.  [PUT /:id/read] on the caller's own receiver row is answered
    with 200 and sets that row read: the caller's unread count goes
    down by one when the row was unread and stays when it was read, the
    unread counts of all other users stay, and no row but this one
    changes. *)
Theorem own_notification_marked_read U id db r :
  NoDup (nr_id <$> notification_receivers db) →
  r ∈ notification_receivers db →
  nr_id r = id →
  nr_userId r = U →
  let result := Api.put_notification_read U id db in
  status result.2 = 200
  ∧ Prisma.set_nr_read r ∈ notification_receivers result.1
  ∧ Prisma.notificationReceiver_count_unread U result.1
    + (if nr_isRead r then 0 else 1)
    = Prisma.notificationReceiver_count_unread U db
  ∧ (∀ V, V ≠ U →
       Prisma.notificationReceiver_count_unread V result.1
       = Prisma.notificationReceiver_count_unread V db)
  ∧ (∀ i r', notification_receivers db !! i = Some r' → nr_id r' ≠ id →
       notification_receivers result.1 !! i = Some r').
Proof.
  intros Hnd Hin Hid Hu result.
  assert (Hfirst : is_Some (Store.notificationReceiver_findFirst id U db)).
  { unfold Store.notificationReceiver_findFirst.
    destruct (find _ _) eqn:Hf; [by eexists|].
    apply list_elem_of_In in Hin.
    eapply find_none in Hf; [|exact Hin]. simpl in Hf.
    by rewrite bool_decide_eq_true_2 in Hf. }
  destruct Hfirst as [r0 Hr0].
  assert (Hrun : result
    = (Prisma.with_notifications db (notifications db)
         ((λ x, if bool_decide (nr_id x = id) then Prisma.set_nr_read x else x)
            <$> notification_receivers db),
       {| status := 200; body := json_msg "Notification marked as read" |})).
  { subst result. unfold Api.put_notification_read. rewrite Hr0.
    unfold Store.notificationReceiver_update_read.
    rewrite bool_decide_eq_true_2; [done|].
    rewrite <- Hid. by apply list_elem_of_fmap_2. }
  rewrite Hrun. unfold Prisma.notificationReceiver_count_unread.
  cbn [fst snd status notification_receivers Prisma.with_notifications].
  apply list_elem_of_split in Hin as (l1 & l2 & Hsplit).
  rewrite Hsplit in Hnd |- *. rewrite fmap_app, fmap_cons in Hnd.
  apply NoDup_app in Hnd as (Hnd1 & Hdisj & Hnd2).
  apply NoDup_cons in Hnd2 as [Hl2 _].
  assert (Hl1 : id ∉ nr_id <$> l1).
  { intros Hin1. apply (Hdisj _ Hin1). rewrite Hid. by left. }
  rewrite Hid in Hl2.
  rewrite !fmap_app, !fmap_cons, !set_nr_read_fresh_id by done.
  rewrite bool_decide_eq_true_2 by done.
  split; [done|]. split; [|split; [|split]].
  - apply elem_of_app. right. by left.
  - rewrite !filter_app, !filter_cons, !length_app.
    rewrite (decide_False (P := _ ∧ nr_isRead (Prisma.set_nr_read r) = false))
      by (by intros [_ ?]).
    destruct (nr_isRead r) eqn:Hread.
    + rewrite decide_False by (by intros [_ ?]). simpl. lia.
    + rewrite decide_True by done. simpl. lia.
  - intros V HV. rewrite !filter_app, !filter_cons, !length_app.
    rewrite !decide_False; [done | | ]; simpl; intros [? _]; congruence.
  - intros i r' Hi Hne.
    rewrite <- Hi. rewrite <- (set_nr_read_fresh_id id l1) at 2 by done.
    rewrite <- (set_nr_read_fresh_id id l2) at 2 by done.
    assert (Hmap : ∀ rows : list NotificationReceiver,
      rows !! i = Some r' →
      ((λ x, if bool_decide (nr_id x = id) then Prisma.set_nr_read x else x)
         <$> rows) !! i = Some r').
    { intros rows Hrows. rewrite list_lookup_fmap, Hrows. simpl.
      by rewrite bool_decide_eq_false_2. }
    specialize (Hmap _ Hi). rewrite fmap_app, fmap_cons in Hmap.
    rewrite bool_decide_eq_true_2 in Hmap by done.
    rewrite !set_nr_read_fresh_id in Hmap by done. rewrite Hmap.
    by rewrite !set_nr_read_fresh_id by done.
Qed.

Lemma own_notification_marked_read_witness :
  NoDup (nr_id <$> notification_receivers Scenario.db_nr1)
  ∧ Scenario.nr1 ∈ notification_receivers Scenario.db_nr1
  ∧ nr_id Scenario.nr1 = "r1"
  ∧ nr_userId Scenario.nr1 = "B"
  ∧ Prisma.notificationReceiver_count_unread "B" Scenario.db_nr1 = 1
  ∧ Prisma.notificationReceiver_count_unread "B"
      (Api.put_notification_read "B" "r1" Scenario.db_nr1).1 + 1 = 1.
Proof.
  assert (H1 : NoDup (nr_id <$> notification_receivers Scenario.db_nr1))
    by apply NoDup_singleton.
  assert (H2 : Scenario.nr1 ∈ notification_receivers Scenario.db_nr1)
    by by left.
  split; [exact H1|]. split; [exact H2|]. do 3 (split; [reflexivity|]).
  destruct (own_notification_marked_read "B" "r1" Scenario.db_nr1 Scenario.nr1
              H1 H2 eq_refl eq_refl) as (_ & _ & Hcount & _).
  exact Hcount.
Defined.

(** ** Who is notified *)

Lemma find_user_Some i db u : Prisma.find_user i db = Some u → u_id u = i.
Proof.
  unfold Prisma.find_user. intros H. apply find_some in H as [_ Hb].
  by apply bool_decide_eq_true in Hb.
Qed.

Lemma one_receiver_not_actor g k type entityId actorId u db U n db1 :
  u ≠ U →
  Prisma.notification_create g k type entityId actorId [u] db = inr (n, db1) →
  ∃ new, notification_receivers db1 = notification_receivers db ++ new
         ∧ Forall (λ r, nr_userId r ≠ U) new.
Proof.
  intros Hne H. apply notification_create_inv in H as [_ ->].
  eexists. split; [reflexivity|]. by repeat constructor.
Qed.

Lemma nothing_new (rows : list NotificationReceiver) U :
  ∃ new, rows = rows ++ new ∧ Forall (λ r, nr_userId r ≠ U) new.
Proof. exists []. by rewrite app_nil_r. Qed.

(** X13.  Liking, commenting and following never notify the acting
    user: whatever the input and however the request ends, every
    receiver row the three routes add belongs to a user other than the
    caller. *)
Theorem posts_and_follows_never_notify_the_actor g U db :
  (∀ postId,
     ∃ new, notification_receivers (Routes.post_like g U postId db).1
            = notification_receivers db ++ new
            ∧ Forall (λ r, nr_userId r ≠ U) new)
  ∧ (∀ postId content comments,
       ∃ new, notification_receivers
                (Api.post_comment g U postId content db comments).1.1
              = notification_receivers db ++ new
              ∧ Forall (λ r, nr_userId r ≠ U) new)
  ∧ (∀ followingId follows,
       ∃ new, notification_receivers
                (Api.post_follow g U followingId db follows).1.1
              = notification_receivers db ++ new
              ∧ Forall (λ r, nr_userId r ≠ U) new).
Proof.
  split; [|split].
  - intros postId. unfold Routes.post_like.
    destruct (Prisma.post_findUnique postId db) as [e|[post|]];
      try apply nothing_new.
    destruct (Prisma.like_findFirst _ _ _); [apply nothing_new|].
    destruct (Prisma.like_create _ _ _ _ _) as [e|[l db1]] eqn:Hl;
      [apply nothing_new|].
    apply like_create_notifications in Hl as [_ Hrows].
    case_bool_decide as Hown; cbn [fst]; rewrite <- Hrows;
      [|apply nothing_new].
    destruct (Prisma.notification_create _ _ _ _ _ _ _) as [e|[n db2]] eqn:Hn;
      cbn [fst]; [apply nothing_new|].
    by eapply one_receiver_not_actor.
  - intros postId content comments. unfold Api.post_comment.
    destruct content as [text|]; [|apply nothing_new].
    case_bool_decide; [apply nothing_new|].
    destruct (Prisma.post_findUnique postId db) as [e|[post|]];
      try apply nothing_new.
    destruct (Store.comment_create _ _ _ _ _ _ _) as [e|[[c u] cs]];
      [apply nothing_new|].
    case_bool_decide as Hown; [|apply nothing_new].
    destruct (Prisma.notification_create _ _ _ _ _ _ _) as [e|[n db2]] eqn:Hn;
      cbn [fst]; [apply nothing_new|].
    by eapply one_receiver_not_actor.
  - intros followingId follows. unfold Api.post_follow.
    case_bool_decide as Hself; [apply nothing_new|].
    destruct followingId as [f|]; [|apply nothing_new].
    unfold Prisma.user_findUnique.
    destruct (Prisma.find_user f db) as [x|] eqn:Hx; [|apply nothing_new].
    apply find_user_Some in Hx.
    destruct (Store.follow_findFirst _ _ _); [apply nothing_new|].
    destruct (Store.follow_create _ _ _ _ _ _); [apply nothing_new|].
    destruct (Prisma.notification_create _ _ _ _ _ _ _) as [e|[n db2]] eqn:Hn;
      cbn [fst]; [apply nothing_new|].
    eapply one_receiver_not_actor; [|exact Hn]. congruence.
Qed.

(** X14.  Sending a message has no such filter: a user who sends a
    message to themselves is notified of it.  The send writes a MESSAGE
    notification whose actor and whose one receiver are both the
    sender, and the sender's unread notification count goes up by
    one. *)
Theorem message_to_self_notifies_self g sid A text io db ua :
  Prisma.find_user A db = Some ua →
  uuid g 0 ∉ m_id <$> messages db →
  uuid g 1 ∉ n_id <$> notifications db →
  uuid g 2 ∉ nr_id <$> notification_receivers db →
  let db' := (Socket.on_message_send g sid A (Some A) (Some text) io db).1.1 in
  notifications db'
  = notifications db ++
    [ {| n_id := uuid g 1; n_type := MESSAGE; n_createdAt := now g;
         n_entityId := None; n_actorId := Some A |} ]
  ∧ notification_receivers db'
    = notification_receivers db ++
      [ {| nr_id := uuid g 2; nr_notificationId := uuid g 1;
           nr_userId := A; nr_isRead := false; nr_createdAt := now g |} ]
  ∧ Prisma.notificationReceiver_count_unread A db'
    = S (Prisma.notificationReceiver_count_unread A db).
Proof.
  intros HA Hm Hn Hr db'. subst db'.
  rewrite (on_message_send_ok g sid A A text io db ua ua) by done.
  cbn [fst]. split; [done|]. split; [done|].
  unfold Prisma.notificationReceiver_count_unread.
  cbn [notification_receivers sent_store].
  rewrite filter_app, length_app, (filter_cons_True _ _ []) by done.
  simpl. lia.
Qed.

Lemma message_to_self_notifies_self_witness :
  Prisma.find_user "A" Scenario.db_AB = Some Scenario.alice
  ∧ (uuid Scenario.g0 0 ∉ m_id <$> messages Scenario.db_AB)
  ∧ (uuid Scenario.g0 1 ∉ n_id <$> notifications Scenario.db_AB)
  ∧ (uuid Scenario.g0 2 ∉ nr_id <$> notification_receivers Scenario.db_AB)
  ∧ Prisma.notificationReceiver_count_unread "A"
      (Socket.on_message_send Scenario.g0 "c1" "A" (Some "A") (Some "hi")
         Scenario.io_A Scenario.db_AB).1.1 = 1.
Proof.
  assert (H2 : Prisma.find_user "A" Scenario.db_AB = Some Scenario.alice)
    by reflexivity.
  assert (H4 : uuid Scenario.g0 0 ∉ m_id <$> messages Scenario.db_AB)
    by apply not_elem_of_nil.
  assert (H5 : uuid Scenario.g0 1 ∉ n_id <$> notifications Scenario.db_AB)
    by apply not_elem_of_nil.
  assert (H6 : uuid Scenario.g0 2
               ∉ nr_id <$> notification_receivers Scenario.db_AB)
    by apply not_elem_of_nil.
  repeat (split; [assumption|]).
  exact (proj2 (proj2 (message_to_self_notifies_self Scenario.g0 "c1" "A" "hi"
                         Scenario.io_A Scenario.db_AB Scenario.alice
                         H2 H4 H5 H6))).
Defined.

(** ** Deleting a comment *)

(** X15.  A comment is deleted only for its author or for the owner of
    the post it is on: an answer of 200 means the caller is one of the
    two and exactly the comment with that id is gone; any other answer
    leaves the comments as they are.  No other comment is ever
    removed. *)
Theorem comment_delete_authorized U id db comments :
  let result := Api.delete_comment U id db comments in
  (status result.2 = 200 →
     ∃ c, Store.find_comment id comments = Some c
          ∧ (c_userId c = U
             ∨ ∃ post, Prisma.find_post (c_postId c) db = Some post
                       ∧ p_userId post = U)
          ∧ result.1 = filter (λ x, c_id x ≠ id) comments)
  ∧ (status result.2 ≠ 200 → result.1 = comments)
  ∧ (∀ c, c ∈ comments → c_id c ≠ id → c ∈ result.1).
Proof.
  intros result. subst result. unfold Api.delete_comment.
  destruct (Store.find_comment id comments) as [c|] eqn:Hc;
    [|by repeat split].
  assert (Hkeep : ∀ x, x ∈ comments → c_id x ≠ id →
                       x ∈ filter (λ x, c_id x ≠ id) comments).
  { intros x Hx Hne. by apply list_elem_of_filter. }
  case_bool_decide as Hauthor.
  - destruct (Prisma.find_post (c_postId c) db) as [post|] eqn:Hp;
      [|by repeat split].
    case_bool_decide as Howner; [by repeat split|].
    split; [|split]; [ | done | exact Hkeep].
    intros _. exists c. split; [done|]. split; [|done].
    right. exists post. split; [done|].
    by destruct (decide (p_userId post = U)).
  - split; [|split]; [ | done | exact Hkeep].
    intros _. exists c. split; [done|]. split; [|done].
    left. by destruct (decide (c_userId c = U)).
Qed.

(** ** The client's view *)

Lemma presence_after_broadcast (l : list string) ev s view :
  NoDup l →
  Client.presence_after s ((λ x, (x, ev)) <$> l) view
  = if decide (s ∈ l) then Client.presence_listener ev view else view.
Proof.
  intros Hnd. revert view.
  induction Hnd as [|x l Hx Hnd IH]; intros view; [done|].
  unfold Client.presence_after in *. rewrite fmap_cons. cbn [foldl fst snd].
  rewrite IH. case_bool_decide as Hs.
  - subst x. rewrite decide_False by done.
    rewrite decide_True; [done | by left].
  - destruct (decide (s ∈ l)) as [Hin|Hout].
    + rewrite decide_True; [done | by right].
    + rewrite decide_False; [done|].
      intros [?|?]%elem_of_cons; [congruence | done].
Qed.

Lemma presence_after_io_emit io ev s view :
  Client.presence_after s (Io.io_emit io ev) view
  = if decide (is_Some (Io.sockets io !! s))
    then Client.presence_listener ev view else view.
Proof.
  unfold Io.io_emit. rewrite presence_after_broadcast by apply NoDup_elements.
  destruct (decide (s ∈ elements (dom (Io.sockets io)))) as [Hin|Hout].
  - rewrite decide_True; [done|]. by apply elem_of_dom, elem_of_elements.
  - rewrite decide_False; [done|].
    intros Hs. by apply Hout, elem_of_elements, elem_of_dom.
Qed.

(** X16.  What the presence broadcasts do to the clients' online sets.
    A client that is connected when [A] connects has [A] in its set
    afterwards, and a client that is connected when a socket of a user
    disconnects has that user out of its set afterwards.  A client that
    connects ends with itself as the only user online: the users
    connected before it are not announced to it. *)
Theorem client_presence_follows_broadcast io sid A s B view :
  Io.sockets io !! sid = None →
  Io.sockets io !! s = Some B →
  Client.presence_after s (Io.on_connection sid A io).2 view = {[A]} ∪ view
  ∧ Client.presence_after sid (Io.on_connection sid A io).2 ∅ = {[A]}
  ∧ (B ≠ A →
       Client.isUserOnline
         (Client.presence_after sid (Io.on_connection sid A io).2 ∅) B = false)
  ∧ (∀ s' A', Io.sockets io !! s' = Some A' → s' ≠ s →
       Client.presence_after s (Io.on_disconnect s' A' io).2 view
       = view ∖ {[A']}).
Proof.
  intros Hfresh Hs.
  assert (Hnew : Client.presence_after sid (Io.on_connection sid A io).2 ∅
                 = {[A]}).
  { unfold Io.on_connection. cbn [snd]. rewrite presence_after_io_emit.
    rewrite decide_True; [|simpl; by rewrite lookup_insert_eq].
    simpl. apply union_empty_r_L. }
  split; [|split; [exact Hnew|split]].
  - unfold Io.on_connection. cbn [snd]. rewrite presence_after_io_emit.
    rewrite decide_True; [done|]. simpl.
    rewrite lookup_insert_ne by congruence. by rewrite Hs.
  - intros Hne. rewrite Hnew. unfold Client.isUserOnline.
    apply bool_decide_eq_false. by intros ?%elem_of_singleton.
  - intros s' A' Hs' Hne. unfold Io.on_disconnect. cbn [snd].
    rewrite presence_after_io_emit. rewrite decide_True; [done|]. simpl.
    rewrite lookup_delete_ne by done. by rewrite Hs.
Qed.

Lemma client_presence_follows_broadcast_witness :
  Io.sockets Scenario.io_A !! "c2" = None
  ∧ Io.sockets Scenario.io_A !! "c1" = Some "A"
  ∧ Client.presence_after "c1" (Io.on_connection "c2" "B" Scenario.io_A).2
      {[ "A" ]} = {[ "B" ]} ∪ {[ "A" ]}
  ∧ Client.presence_after "c2" (Io.on_connection "c2" "B" Scenario.io_A).2 ∅
    = {[ "B" ]}.
Proof.
  assert (H1 : Io.sockets Scenario.io_A !! "c2" = None) by reflexivity.
  assert (H2 : Io.sockets Scenario.io_A !! "c1" = Some "A") by reflexivity.
  split; [exact H1|]. split; [exact H2|].
  destruct (client_presence_follows_broadcast Scenario.io_A "c2" "B" "c1" "A"
              {[ "A" ]} H1 H2) as (Hseen & Hnew & _).
  split; [exact Hseen | exact Hnew].
Defined.

(** X17.  The conversation page's handling of a read receipt is
    idempotent and leaves a list without that message as it is, so a
    receipt that arrives again changes nothing on the page; receipts
    for different messages can arrive in either order. *)
Theorem read_receipt_handling_idempotent i j (l : list MessageWithSender) :
  Client.handleMessageRead i (Client.handleMessageRead i l)
  = Client.handleMessageRead i l
  ∧ Client.handleMessageRead i (Client.handleMessageRead j l)
    = Client.handleMessageRead j (Client.handleMessageRead i l)
  ∧ (m_id <$> (mw_message <$> Client.handleMessageRead i l))
    = (m_id <$> (mw_message <$> l))
  ∧ ((∀ mw, mw ∈ l → m_id (mw_message mw) = i →
            m_isRead (mw_message mw) = true) →
     Client.handleMessageRead i l = l).
Proof.
  unfold Client.handleMessageRead. split; [|split; [|split]].
  - rewrite <- list_fmap_compose. apply list_fmap_ext. intros k mw _. simpl.
    repeat (case_bool_decide; simpl in *); done.
  - rewrite <- !list_fmap_compose. apply list_fmap_ext. intros k mw _. simpl.
    repeat (case_bool_decide; simpl); done.
  - rewrite <- !list_fmap_compose. apply list_fmap_ext. intros k mw _. simpl.
    by case_bool_decide.
  - intros Hread. rewrite <- (list_fmap_id l) at 2.
    apply list_fmap_ext. intros k mw Hk. simpl.
    case_bool_decide as Hi; [|done].
    apply list_elem_of_lookup_2 in Hk. specialize (Hread mw Hk Hi).
    destruct mw as [m sender]. simpl in *. by rewrite set_read_id.
Qed.

(** X18.  A delivered message is acknowledged end to end.  [A] sends
    to [B], who is registered and has the conversation with [A] open:
    [B]'s socket is sent the message once, the page appends it and
    emits a read receipt for its id, the server's handling of that
    receipt stores the message as read and sends the receipt exactly
    once to the socket [A] sent from. *)
Theorem delivered_message_is_acknowledged g sA sB A B text io db ua ub prev :
  Io.reachable io →
  Io.sockets io !! sA = Some A →
  Io.activeConnections io !! B = Some sB →
  A ≠ B →
  Prisma.find_user A db = Some ua →
  Prisma.find_user B db = Some ub →
  uuid g 0 ∉ m_id <$> messages db →
  uuid g 1 ∉ n_id <$> notifications db →
  uuid g 2 ∉ nr_id <$> notification_receivers db →
  let sent := Socket.on_message_send g sA A (Some B) (Some text) io db in
  let payload :=
    {| mw_message := sent_message g A B text; mw_sender := ua |} in
  let page := Client.handleReceiveMessage A payload prev in
  let acked :=
    Socket.on_message_read sB B (Some (uuid g 0)) io sent.1.1 in
  Io.received sB (message_receive payload) sent.1.2 = 1
  ∧ page = (prev ++ [payload], [Client.emit_message_read (uuid g 0)])
  ∧ acked.2 = Done
  ∧ Prisma.find_message (uuid g 0) acked.1.1
    = Some (Prisma.set_read (sent_message g A B text))
  ∧ Io.received sA (message_read (uuid g 0)) acked.1.2 = 1.
Proof.
  intros Hreach HsA HsB Hne HA HB Hm Hn Hr sent payload page acked.
  destruct (reachable_inv io Hreach) as [Hlive Hrooms].
  assert (Hsent : sent
    = (sent_store g A B text db,
       Io.socket_to_emit io sA (Io.user_room B) (message_receive payload)
       ++ Io.socket_to_emit io sA (Io.user_room B) notification_new,
       Done)).
  { subst sent. by rewrite (on_message_send_ok g sA A B text io db ua ub). }
  assert (Hfind : Prisma.find_message (uuid g 0) sent.1.1
                  = Some (sent_message g A B text)).
  { rewrite Hsent. by apply (find_message_new (uuid g 0) db). }
  assert (HsBne : sB ≠ sA).
  { intros ->. apply Hlive in HsB. congruence. }
  split; [|split; [|split; [|split]]].
  - rewrite Hsent. cbn [fst snd].
    rewrite received_app, !received_socket_to_emit.
    rewrite bool_decide_eq_true_2.
    + rewrite bool_decide_eq_false_2; [done | by intros [_ ?]].
    + split; [|done]. split; [by apply registered_in_room | done].
  - subst page. unfold Client.handleReceiveMessage. simpl.
    by rewrite bool_decide_eq_true_2.
  - subst acked. by rewrite (on_message_read_found _ _ _ _ _ _ Hfind).
  - subst acked. rewrite (on_message_read_found _ _ _ _ _ _ Hfind).
    cbn [fst]. unfold Prisma.find_message.
    cbn [messages Prisma.with_messages]. rewrite find_message_fmap.
    + unfold Prisma.find_message in Hfind. rewrite Hfind. simpl.
      by rewrite bool_decide_eq_true_2.
    + intros m. by case_bool_decide.
  - subst acked. rewrite (on_message_read_found _ _ _ _ _ _ Hfind).
    cbn [fst snd m_senderId sent_message].
    rewrite received_socket_to_emit, bool_decide_eq_true_2; [done|].
    split; [|done]. split; [by apply Hrooms | done].
Qed.

Lemma delivered_message_is_acknowledged_witness :
  Io.reachable Scenario.io_AB
  ∧ Io.sockets Scenario.io_AB !! "c1" = Some "A"
  ∧ Io.activeConnections Scenario.io_AB !! "B" = Some "c2"
  ∧ "A" ≠ "B"
  ∧ Prisma.find_user "A" Scenario.db_AB = Some Scenario.alice
  ∧ Prisma.find_user "B" Scenario.db_AB = Some Scenario.bob
  ∧ (uuid Scenario.g0 0 ∉ m_id <$> messages Scenario.db_AB)
  ∧ (uuid Scenario.g0 1 ∉ n_id <$> notifications Scenario.db_AB)
  ∧ (uuid Scenario.g0 2 ∉ nr_id <$> notification_receivers Scenario.db_AB)
  ∧ Io.received "c1" (message_read (uuid Scenario.g0 0))
      (Socket.on_message_read "c2" "B" (Some (uuid Scenario.g0 0))
         Scenario.io_AB
         (Socket.on_message_send Scenario.g0 "c1" "A" (Some "B") (Some "hi")
            Scenario.io_AB Scenario.db_AB).1.1).1.2 = 1.
Proof.
  assert (H0 : Io.reachable Scenario.io_AB).
  { eapply Io.reachable_step; [exact io_A_reachable|].
    by apply Io.step_connect. }
  assert (H1 : Io.sockets Scenario.io_AB !! "c1" = Some "A") by reflexivity.
  assert (H1' : Io.activeConnections Scenario.io_AB !! "B" = Some "c2")
    by reflexivity.
  assert (Hne : "A" ≠ "B") by discriminate.
  assert (H2 : Prisma.find_user "A" Scenario.db_AB = Some Scenario.alice)
    by reflexivity.
  assert (H3 : Prisma.find_user "B" Scenario.db_AB = Some Scenario.bob)
    by reflexivity.
  assert (H4 : uuid Scenario.g0 0 ∉ m_id <$> messages Scenario.db_AB)
    by apply not_elem_of_nil.
  assert (H5 : uuid Scenario.g0 1 ∉ n_id <$> notifications Scenario.db_AB)
    by apply not_elem_of_nil.
  assert (H6 : uuid Scenario.g0 2
               ∉ nr_id <$> notification_receivers Scenario.db_AB)
    by apply not_elem_of_nil.
  repeat (split; [assumption|]).
  destruct (delivered_message_is_acknowledged Scenario.g0 "c1" "c2" "A" "B"
              "hi" Scenario.io_AB Scenario.db_AB Scenario.alice Scenario.bob
              [] H0 H1 H1' Hne H2 H3 H4 H5 H6) as (_ & _ & _ & _ & Hack).
  exact Hack.
Defined.

(** ** Following *)

Lemma follow_findFirst_None a b (follows : list Follow) :
  Store.follow_findFirst a b follows = None →
  (a, b) ∉ (λ f, (f_followerId f, f_followingId f)) <$> follows.
Proof.
  unfold Store.follow_findFirst.
  induction follows as [|f fs IH]; simpl; [intros _; apply not_elem_of_nil|].
  case_bool_decide as Hf; [done|]. intros Hnone.
  apply not_elem_of_cons. split; [|by apply IH].
  intros [= -> ->]. by apply Hf.
Qed.

(** What a follow answered with 201 has found and written. *)
Lemma post_follow_created g U followingId db follows :
  status (Api.post_follow g U followingId db follows).2 = 201 →
  ∃ x, followingId = Some x ∧ x ≠ U
       ∧ is_Some (Prisma.find_user x db)
       ∧ ((U, x) ∉ (λ f, (f_followerId f, f_followingId f)) <$> follows)
       ∧ (Api.post_follow g U followingId db follows).1.2
         = follows ++ [ {| f_id := uuid g 0; f_followerId := U;
                           f_followingId := x; f_createdAt := now g |} ]
       ∧ users (Api.post_follow g U followingId db follows).1.1 = users db.
Proof.
  unfold Api.post_follow. case_bool_decide as Hself; [done|].
  destruct followingId as [x|]; [|done]. unfold Prisma.user_findUnique.
  destruct (Prisma.find_user x db) as [u|] eqn:Hu; [|done].
  pose proof (find_user_Some _ _ _ Hu) as Hid. rewrite Hid.
  destruct (Store.follow_findFirst U x follows) eqn:Hfirst; [done|].
  apply follow_findFirst_None in Hfirst.
  unfold Store.follow_create.
  case_bool_decide; [done|]. case_bool_decide; [done|].
  destruct (Prisma.find_user U db); [|done]. rewrite Hu.
  destruct (Prisma.notification_create _ _ _ _ _ _ _) as [e|[n db1]] eqn:Hn;
    [done|].
  apply notification_create_inv in Hn as [_ ->].
  intros _. exists x. split; [done|]. split; [congruence|].
  split; [by eexists|]. done.
Qed.

(** X19.  The follow route keeps the follows well formed, whatever it
    is sent: nobody ends up following themselves and no pair is stored
    twice.  A follow answered with 201 has added exactly the pair
    (caller, followed user) for an existing user other than the caller,
    and following the same user again is refused with 400 and writes
    nothing. *)
Theorem follow_rules g U followingId db follows :
  follows_ok follows →
  let result := Api.post_follow g U followingId db follows in
  follows_ok result.1.2
  ∧ (status result.2 = 201 →
       ∃ x, followingId = Some x ∧ x ≠ U
            ∧ result.1.2
              = follows ++ [ {| f_id := uuid g 0; f_followerId := U;
                                f_followingId := x; f_createdAt := now g |} ]
            ∧ ∀ g', Api.post_follow g' U followingId result.1.1 result.1.2
                    = (result.1.1, result.1.2,
                       {| status := 400;
                          body := json_msg "Already following this user" |})).
Proof.
  intros [Hnd Hself] result. split.
  - subst result. unfold Api.post_follow.
    case_bool_decide as Hme; [by split|].
    destruct (Prisma.user_findUnique followingId db) as [e|[u|]] eqn:Hu;
      [by split | | by split].
    destruct (Store.follow_findFirst U (u_id u) follows) eqn:Hfirst;
      [by split|].
    apply follow_findFirst_None in Hfirst.
    assert (Hneq : U ≠ u_id u).
    { destruct followingId as [x|]; [|done]. unfold Prisma.user_findUnique in Hu.
      injection Hu as Hu. apply find_user_Some in Hu. congruence. }
    assert (Hok : ∀ fs, Store.follow_create g 0 U (u_id u) db follows = inr fs →
                        follows_ok fs).
    { unfold Store.follow_create. intros fs Hfs.
      case_bool_decide; [done|]. case_bool_decide; [done|].
      destruct (Prisma.find_user U db); [|done].
      destruct (Prisma.find_user (u_id u) db); [|done].
      simplify_eq. split.
      - rewrite fmap_app. apply NoDup_app. split; [done|].
        split; [|apply NoDup_singleton].
        intros p Hp Hp'. apply list_elem_of_singleton in Hp'. by subst p.
      - intros f [Hf|Hf]%elem_of_app; [by apply Hself|].
        apply list_elem_of_singleton in Hf. by subst f. }
    destruct (Store.follow_create g 0 U (u_id u) db follows) as [e|fs] eqn:Hfs;
      [by split|].
    specialize (Hok fs eq_refl).
    by destruct (Prisma.notification_create _ _ _ _ _ _ _) as [e|[n db1]].
  - intros Hst.
    destruct (post_follow_created g U followingId db follows Hst)
      as (x & -> & Hx & [u Hu] & Hnew & Hfs & Husers).
    fold result in Hfs, Husers.
    exists x. split; [done|]. split; [done|]. split; [exact Hfs|].
    intros g'. unfold Api.post_follow.
    rewrite bool_decide_eq_false_2 by congruence.
    unfold Prisma.user_findUnique, Prisma.find_user. rewrite Husers.
    fold (Prisma.find_user x db). rewrite Hu.
    rewrite (find_user_Some _ _ _ Hu), Hfs.
    unfold Store.follow_findFirst.
    destruct (find _ (follows ++ _)) eqn:Hfind; [done|].
    eapply find_none in Hfind.
    2:{ apply in_or_app. right. left. reflexivity. }
    simpl in Hfind. by rewrite bool_decide_eq_true_2 in Hfind.
Qed.

Lemma follow_rules_witness :
  follows_ok []
  ∧ follows_ok (Api.post_follow Scenario.g0 "A" (Some "B") Scenario.db_AB []).1.2.
Proof.
  assert (H : follows_ok []).
  { split; [apply NoDup_nil_2 | by intros f ?%elem_of_nil]. }
  split; [exact H|].
  exact (proj1 (follow_rules Scenario.g0 "A" (Some "B") Scenario.db_AB [] H)).
Defined.

(** ** Loading a conversation page by page *)

Lemma insert_desc_fmap scan (f : Message → Message) m l :
  (∀ x, m_createdAt (f x) = m_createdAt x ∧ m_id (f x) = m_id x) →
  Prisma.insert_desc scan (f m) (f <$> l)
  = f <$> Prisma.insert_desc scan m l.
Proof.
  intros Hf. induction l as [|x l IH]; [done|].
  rewrite fmap_cons. simpl. unfold Prisma.goes_before.
  destruct (Hf x) as [-> ->], (Hf m) as [-> ->].
  fold (Prisma.goes_before scan m x).
  destruct (Prisma.goes_before scan m x); [done|].
  by rewrite fmap_cons, IH.
Qed.

Lemma order_desc_fmap scan (f : Message → Message) l :
  (∀ x, m_createdAt (f x) = m_createdAt x ∧ m_id (f x) = m_id x) →
  Prisma.order_desc scan (f <$> l) = f <$> Prisma.order_desc scan l.
Proof.
  intros Hf. unfold Prisma.order_desc.
  induction l as [|x l IH]; [done|].
  rewrite fmap_cons. simpl. by rewrite IH, insert_desc_fmap.
Qed.

Lemma filter_fmap_commute {A} (P : A → Prop) `{!∀ x, Decision (P x)}
    (f : A → A) (l : list A) :
  (∀ x, P (f x) ↔ P x) → filter P (f <$> l) = f <$> filter P l.
Proof.
  intros Hf. induction l as [|x l IH]; [done|].
  rewrite fmap_cons, !filter_cons.
  destruct (decide (P (f x))) as [H1|H1], (decide (P x)) as [H2|H2].
  - by rewrite fmap_cons, IH.
  - exfalso. by apply H2, Hf.
  - exfalso. by apply H1, Hf.
  - exact IH.
Qed.

Lemma load_sender_eq db m :
  Prisma.load_sender db m
  = (λ s, {| mw_message := m; mw_sender := s |})
      <$> Prisma.find_user (m_senderId m) db.
Proof. done. Qed.

Lemma find_user_same_users i db db' :
  users db' = users db → Prisma.find_user i db' = Prisma.find_user i db.
Proof. intros Hu. unfold Prisma.find_user. by rewrite Hu. Qed.

Lemma shown_ids_load_fmap (f : Message → Message) db db' l :
  users db' = users db →
  (∀ x, m_id (f x) = m_id x ∧ m_senderId (f x) = m_senderId x) →
  shown_ids (omap (Prisma.load_sender db') (f <$> l))
  = shown_ids (omap (Prisma.load_sender db) l).
Proof.
  intros Hu Hf. unfold shown_ids. induction l as [|x l IH]; [done|].
  rewrite fmap_cons.
  change (omap ?g (?y :: ?k))
    with (match g y with Some z => z :: omap g k | None => omap g k end).
  rewrite !load_sender_eq, (find_user_same_users _ db db') by done.
  destruct (Hf x) as [Hid Hs]. rewrite Hs.
  destruct (Prisma.find_user (m_senderId x) db); simpl; [|exact IH].
  rewrite Hid. f_equal. exact IH.
Qed.

(** X20.  Loading the first and then the second page of a conversation
    whose messages have pairwise distinct times joins up on the page:
    for a page size from 1 on that is an exact integer, with nothing
    else written in between and whatever the order in which the store
    scans its rows during either fetch, the list the conversation page
    holds after both fetches shows exactly the [2 * limit] newest
    messages of the conversation, oldest first, although the first
    fetch has marked messages read before the second one ran. *)
Theorem two_pages_join_up scan scan' U P limit db :
  is_Some (Prisma.find_user P db) →
  (1 ≤ limit ≤ max_safe_integer)%Z →
  NoDup (m_createdAt <$> filter (λ m, Prisma.in_conversation U P m = true)
                           (messages db)) →
  let first := Routes.get_conversation scan U P (Some 1%Z) (Some limit) db in
  let second :=
    Routes.get_conversation scan' U P (Some 2%Z) (Some limit) first.1 in
  let page1 :=
    Client.fetched 1 (response_totalPages first.2)
      (response_messages first.2) [] in
  let page2 :=
    Client.fetched 2 (response_totalPages second.2)
      (response_messages second.2) page1.1 in
  shown_ids page2.1
  = shown_ids
      (rev (omap (Prisma.load_sender db)
              (take (Z.to_nat limit + Z.to_nat limit)
                 (Prisma.order_desc scan
                    (filter (λ m, Prisma.in_conversation U P m = true)
                       (messages db)))))).
Proof.
  intros [up Hup] Hlimit Hnd first second page1 page2.
  set (sorted := Prisma.order_desc scan
                   (filter (λ m, Prisma.in_conversation U P m = true)
                      (messages db))).
  set (mark := λ m, if bool_decide (m_senderId m = P ∧ m_receiverId m = U
                                    ∧ m_isRead m = false)
                    then Prisma.set_read m else m).
  assert (Hlim : or_default (Some limit) 20 = limit).
  { simpl. destruct (Z.eqb_spec limit 0); [lia | done]. }
  assert (Hmax : (2 ≤ max_safe_integer)%Z) by (by vm_compute).
  assert (Hreq1 : page_request 1 limit) by (unfold page_request; lia).
  assert (Hreq2 : page_request 2 limit) by (unfold page_request; lia).
  assert (Hfirst : first
    = (Prisma.message_updateMany_read P U db,
       {| status := 200;
          body := json_conversation
                    (rev (omap (Prisma.load_sender db)
                            (take (Z.to_nat limit) sorted)))
                    1 limit
                    (Prisma.message_count_conversation U P
                       (Prisma.message_updateMany_read P U db))
                    (ceil_div
                       (Z.of_nat (Prisma.message_count_conversation U P
                          (Prisma.message_updateMany_read P U db))) limit) |})).
  { subst first. rewrite conversation_request.
    - change (or_default (Some 1%Z) 1) with 1%Z. rewrite Hlim.
      fold sorted. done.
    - by eexists.
    - change (or_default (Some 1%Z) 1) with 1%Z. by rewrite Hlim. }
  assert (Hsorted1 :
    Prisma.order_desc scan'
      (filter (λ m, Prisma.in_conversation U P m = true)
         (messages (Prisma.message_updateMany_read P U db)))
    = mark <$> sorted).
  { unfold Prisma.message_updateMany_read. cbn [messages Prisma.with_messages].
    fold mark. rewrite filter_fmap_commute.
    - rewrite order_desc_fmap.
      + f_equal. by apply order_desc_scan.
      + intros x. unfold mark. by case_bool_decide.
    - intros x. unfold mark. by case_bool_decide. }
  assert (Hsecond : response_messages second.2
    = rev (omap (Prisma.load_sender (Prisma.message_updateMany_read P U db))
             (take (Z.to_nat limit) (drop (Z.to_nat limit) (mark <$> sorted))))).
  { subst second. rewrite Hfirst. cbn [fst]. rewrite conversation_request.
    - change (or_default (Some 2%Z) 1) with 2%Z. rewrite Hlim, Hsorted1.
      unfold response_messages. cbn [snd body]. do 4 f_equal. lia.
    - unfold Prisma.find_user.
      cbn [users Prisma.message_updateMany_read Prisma.with_messages].
      fold (Prisma.find_user P db). by eexists.
    - change (or_default (Some 2%Z) 1) with 2%Z. by rewrite Hlim. }
  subst page2 page1. unfold Client.fetched. cbn [fst].
  rewrite (bool_decide_eq_false_2 (2%Z = 1%Z)) by done.
  rewrite (bool_decide_eq_true_2 (1%Z = 1%Z)) by done.
  rewrite Hsecond, Hfirst. unfold response_messages. cbn [snd body].
  rewrite <- fmap_drop, <- fmap_take.
  assert (Hrev : ∀ l : list MessageWithSender,
            shown_ids (rev l) = rev (shown_ids l)).
  { intros l. unfold shown_ids. induction l as [|x l IH]; [done|].
    simpl. by rewrite fmap_app, IH. }
  assert (Happ : ∀ l k : list MessageWithSender,
            shown_ids (l ++ k) = shown_ids l ++ shown_ids k).
  { intros l k. unfold shown_ids. by rewrite fmap_app. }
  rewrite Happ, !Hrev.
  rewrite (shown_ids_load_fmap mark db); [| done |].
  2:{ intros x. unfold mark. by case_bool_decide. }
  rewrite <- rev_app_distr, <- Happ, <- omap_app.
  by rewrite take_take_drop.
Qed.

Lemma two_pages_join_up_witness :
  is_Some (Prisma.find_user "A" Scenario.db_m3)
  ∧ (1 ≤ 2 ≤ max_safe_integer)%Z
  ∧ NoDup (m_createdAt <$> filter (λ m, Prisma.in_conversation "B" "A" m = true)
                             (messages Scenario.db_m3))
  ∧ shown_ids
      (response_messages
         (Routes.get_conversation Scenario.scan1 "B" "A" (Some 2%Z)
            (Some 2%Z)
            (Routes.get_conversation Scenario.scan0 "B" "A" (Some 1%Z)
               (Some 2%Z) Scenario.db_m3).1).2)
    = ["m1"]
  ∧ shown_ids
      (Client.fetched 2
         (response_totalPages
            (Routes.get_conversation Scenario.scan1 "B" "A" (Some 2%Z)
               (Some 2%Z)
               (Routes.get_conversation Scenario.scan0 "B" "A" (Some 1%Z)
                  (Some 2%Z) Scenario.db_m3).1).2)
         (response_messages
            (Routes.get_conversation Scenario.scan1 "B" "A" (Some 2%Z)
               (Some 2%Z)
               (Routes.get_conversation Scenario.scan0 "B" "A" (Some 1%Z)
                  (Some 2%Z) Scenario.db_m3).1).2)
         (Client.fetched 1
            (response_totalPages
               (Routes.get_conversation Scenario.scan0 "B" "A" (Some 1%Z)
                  (Some 2%Z) Scenario.db_m3).2)
            (response_messages
               (Routes.get_conversation Scenario.scan0 "B" "A" (Some 1%Z)
                  (Some 2%Z) Scenario.db_m3).2) []).1).1
    = ["m1"; "m2"; "m3"].
Proof.
  assert (HP : is_Some (Prisma.find_user "A" Scenario.db_m3)) by by eexists.
  assert (Hl : (1 ≤ 2 ≤ max_safe_integer)%Z).
  { unfold max_safe_integer. simpl. lia. }
  assert (Hnd : NoDup (m_createdAt <$>
                         filter (λ m, Prisma.in_conversation "B" "A" m = true)
                           (messages Scenario.db_m3))).
  { vm_compute.
    repeat (apply NoDup_cons_2;
            [intros H;
             repeat (apply elem_of_cons in H as [H|H]; [discriminate H|]);
             by apply elem_of_nil in H|]).
    apply NoDup_nil_2. }
  split; [exact HP|]. split; [exact Hl|]. split; [exact Hnd|].
  split; [reflexivity|].
  rewrite (two_pages_join_up Scenario.scan0 Scenario.scan1 "B" "A" 2
             Scenario.db_m3 HP Hl Hnd).
  reflexivity.
Defined.
